(** * rss_lent: the news ingestion pipeline of [app.py]

    A shallow embedding of [fetch_rss_feed], [extract_article_content],
    [update_news] and of the read-side queries of the Flask views, with the
    properties of the ingestion cycle proved about it.

    Conventions of the embedding.
    - A Python [str] is the [string] of its UTF-8 encoding; [len] and
      [s[:n]] count characters (code points), not bytes: they are [str_len]
      and [str_take]; [startswith] is [startswith].
    - An attribute that may be missing ([hasattr(entry, 'title')]) is an
      [option]; a dictionary key that may be missing likewise.
    - A Python exception is [Raise msg]; a [try ... except Exception] block is
      a [match] on the outcome.
    - The SQLAlchemy session is the record [session]: the committed tables,
      the list of rows handed to [db.session.add] and not yet committed, and
      whether a failed flush has rolled the transaction back.  An exception
      that nothing catches is the session left rolled back: the turns of the
      loop that remain do nothing and [update_news] does not commit.
    - Third-party functions (BeautifulSoup, dateutil, urllib) are the fields
      of [Lib]; the network, the clock, the configuration and the failures of
      the database are the fields of [World]. *)

From Stdlib Require Import String Ascii List ZArith Lia Bool Arith DecimalString.
From Stdlib Require Import Sorted Permutation.
Import ListNotations.
Local Open Scope list_scope.
Local Open Scope string_scope.

(* ===================================================================== *)
(** * Python values *)
(* ===================================================================== *)

(** A byte [10xxxxxx] of a UTF-8 string continues the character that the
    bytes before it began. *)
Definition is_continuation (c : ascii) : bool :=
  match c with
  | Ascii _ _ _ _ _ _ b6 b7 => b7 && negb b6
  end.

(** [len(s)]: the number of characters, that is of bytes that begin one. *)
Fixpoint str_len (s : string) : nat :=
  match s with
  | EmptyString => 0
  | String c s' => if is_continuation c then str_len s' else S (str_len s')
  end.

(** [s[:n]] on a string: its first [n] characters, each with all its
    bytes. *)
Fixpoint str_take (n : nat) (s : string) {struct s} : string :=
  match s with
  | EmptyString => EmptyString
  | String c s' =>
      if is_continuation c then String c (str_take n s')
      else match n with
           | O => EmptyString
           | S n' => String c (str_take n' s')
           end
  end.

(** [s.startswith(p)]. *)
Definition startswith (s p : string) : bool := String.prefix p s.

(** Truth value of a string: [if s:]. *)
Definition str_truthy (s : string) : bool :=
  match s with EmptyString => false | String _ _ => true end.

(** Truth value of a value that is [None] or a string: [if image_url:]. *)
Definition truthy (o : option string) : bool :=
  match o with Some s => str_truthy s | None => false end.

(** [l[:n]] on a list, for any integer [n]: a negative bound counts from the
    end of the list. *)
Definition py_slice_to {A : Type} (l : list A) (n : Z) : list A :=
  if (0 <=? n)%Z then firstn (Z.to_nat n) l
  else firstn (length l - Z.to_nat (- n)) l.

(** [str(n)] for a natural number. *)
Definition str_of_nat (n : nat) : string := NilEmpty.string_of_uint (Nat.to_uint n).

(** Outcome of a computation that may raise: the value, or the text of the
    exception ([str(e)]). *)
Inductive Exc (A : Type) : Type :=
| Ok (a : A)
| Raise (msg : string).
Arguments Ok {A} a.
Arguments Raise {A} msg.

Definition exc_bind {A B : Type} (c : Exc A) (k : A -> Exc B) : Exc B :=
  match c with Ok a => k a | Raise m => Raise m end.

(** [[f(x) for x in l]], stopping at the first exception. *)
Fixpoint exc_map {A B : Type} (f : A -> Exc B) (l : list A) : Exc (list B) :=
  match l with
  | [] => Ok []
  | x :: l' =>
      exc_bind (f x) (fun y => exc_bind (exc_map f l') (fun ys => Ok (y :: ys)))
  end.

(* ===================================================================== *)
(** * datetime *)
(* ===================================================================== *)

(** A [datetime.datetime]; [tzinfo] is the UTC offset in minutes of an aware
    value and [None] for a naive one. *)
Record datetime : Type := mk_datetime {
  year : Z; month : Z; day : Z;
  hour : Z; minute : Z; second : Z; microsecond : Z;
  tzinfo : option Z
}.

(** [d.replace(tzinfo=None)]: the wall-clock fields are kept. *)
Definition replace_tzinfo_none (d : datetime) : datetime :=
  mk_datetime (year d) (month d) (day d) (hour d) (minute d) (second d)
              (microsecond d) None.

Definition is_leap (y : Z) : bool :=
  ((y mod 4 =? 0) && (negb (y mod 100 =? 0) || (y mod 400 =? 0)))%Z.

Definition days_in_month (y m : Z) : Z :=
  if (m =? 2)%Z then (if is_leap y then 29 else 28)%Z
  else if ((m =? 4) || (m =? 6) || (m =? 9) || (m =? 11))%Z then 30%Z
  else 31%Z.

(** The range checks of the [datetime(...)] constructor. *)
Definition datetime_fields_ok (y m d h mi s : Z) : bool :=
  ((1 <=? y) && (y <=? 9999) && (1 <=? m) && (m <=? 12) &&
   (1 <=? d) && (d <=? days_in_month y m) &&
   (0 <=? h) && (h <=? 23) && (0 <=? mi) && (mi <=? 59) &&
   (0 <=? s) && (s <=? 59))%Z.

(** The constructor [datetime] applied to the items of a tuple of at most six
    integers: year, month and day
    are required, the time fields default to zero, and a value out of range
    raises [ValueError]. *)
Definition datetime_of_tuple (t : list Z) : Exc datetime :=
  match t with
  | y :: m :: d :: rest =>
      let h := nth 0 rest 0%Z in
      let mi := nth 1 rest 0%Z in
      let s := nth 2 rest 0%Z in
      if (3 <? length rest)%nat then Raise "TypeError"
      else if datetime_fields_ok y m d h mi s
           then Ok (mk_datetime y m d h mi s 0 None)
           else Raise "ValueError"
  | _ => Raise "TypeError"
  end.

(** Days before the first of January of year [y], and before the first of
    month [m] of year [y] (the proleptic Gregorian ordinal of [datetime]). *)
Definition days_before_year (y : Z) : Z :=
  let y1 := (y - 1)%Z in (y1 * 365 + y1 / 4 - y1 / 100 + y1 / 400)%Z.

Fixpoint days_before_month_aux (y : Z) (k : nat) : Z :=
  match k with
  | O => 0%Z
  | S k' => (days_before_month_aux y k' + days_in_month y (Z.of_nat k))%Z
  end.

Definition days_before_month (y m : Z) : Z :=
  days_before_month_aux y (Z.to_nat (m - 1)).

Definition toordinal (d : datetime) : Z :=
  (days_before_year (year d) + days_before_month (year d) (month d) + day d)%Z.

(** Position of a naive datetime on the time line, in microseconds; two
    [DateTime] columns compare as their positions do. *)
Definition timestamp (d : datetime) : Z :=
  ((((toordinal d * 24 + hour d) * 60 + minute d) * 60 + second d) * 1000000
   + microsecond d)%Z.

(** [timedelta(days=n)] in microseconds. *)
Definition timedelta_days (n : Z) : Z := (n * 86400 * 1000000)%Z.

(* ===================================================================== *)
(** * Data model *)
(* ===================================================================== *)

Module Category.
Record t : Type := mk {
  id : Z;
  name : string;
  display_name : string;
  description : option string
}.
End Category.

Module Source.
Record t : Type := mk {
  id : Z;
  name : string;
  url : string;
  rss_url : string;
  category_id : Z;
  is_active : bool
}.
End Source.

Module Article.
(** A row of [articles]; [is_active] and [view_count] take their column
    defaults ([True], [0]) when the row is built from [article_data]. *)
Record t : Type := mk {
  title : string;
  description : string;
  content : option string;
  link : string;
  image_url : option string;
  published_at : datetime;
  category_id : Z;
  source_id : Z;
  is_active : bool;
  view_count : Z;
  guid : string
}.
End Article.

Module UpdateLog.
Record t : Type := mk {
  source_id : Z;
  status : string;
  message : string;
  articles_count : nat
}.
End UpdateLog.

(** An item of [entry.media_content] or [entry.media_thumbnail]: a dictionary
    read with [media.get('type', '')] and [media['url']]. *)
Record media : Type := mk_media {
  media_type : option string;
  media_url : option string
}.

(** An item of [entry.enclosures], read with [hasattr(enclosure, 'type')],
    [enclosure.type] and [enclosure.href]. *)
Record enclosure : Type := mk_enclosure {
  enc_type : option string;
  enc_href : option string
}.

Module Entry.
(** A feedparser entry: every field the normalizer probes, present or not.
    [published_parsed] may be present and [None]; [content] holds the
    [value] of each content item. *)
Record t : Type := mk {
  title : option string;
  summary : option string;
  description : option string;
  link : option string;
  id : option string;
  published_parsed : option (option (list Z));
  published : option string;
  media_content : option (list media);
  media_thumbnail : option (list media);
  enclosures : option (list enclosure);
  content : option (list string)
}.
End Entry.

(** The dictionary [article_data] built by [fetch_rss_feed]; the key
    [content] is added by [update_news] when enrichment gave a text. *)
Record article_data : Type := mk_article_data {
  ad_title : string;
  ad_description : string;
  ad_link : string;
  ad_published_at : datetime;
  ad_guid : string;
  ad_source_id : Z;
  ad_category_id : Z;
  ad_image_url : option string;
  ad_content : option string
}.

(* ===================================================================== *)
(** * Third-party functions and the outside world *)
(* ===================================================================== *)

(** The pure library functions the pipeline calls. *)
Record Lib : Type := mk_Lib {
  (** [BeautifulSoup(html, 'html.parser').get_text()] *)
  get_text : string -> string;
  (** [img.get('src')] for each tag of [soup.find_all('img')], in document
      order *)
  find_all_img : string -> list (option string);
  (** [dateutil.parser.parse] *)
  date_parser_parse : string -> Exc datetime;
  (** [urlparse(url).scheme] and [urlparse(url).netloc], or the
      [ValueError] that [urlparse] raises on a url it refuses *)
  urlparse : string -> Exc (string * string)
}.

(** The two ways the lookup of a link can raise.  The session flushes the
    rows staged so far before it sends the SELECT (autoflush): when that
    flush raises, the session rolls its transaction back, expunges the
    pending rows, expires the loaded objects and refuses every statement with
    [PendingRollbackError] until [rollback()] is called; when the SELECT
    itself raises, the session stays as it was. *)
Inductive lookup_failure : Type :=
| FlushFailed (msg : string)
| SelectFailed (msg : string).

(** What one ingestion cycle meets outside the program. *)
Record World : Type := mk_World {
  (** [feedparser.parse(source.rss_url, ...).entries], or the exception it
      raises *)
  feedparser_parse : Source.t -> Exc (list Entry.t);
  (** [datetime.now(timezone.utc)] *)
  utcnow : datetime;
  (** [int(os.getenv('MAX_ARTICLES_PER_SOURCE', 50))] *)
  max_articles : Z;
  (** [article.text] after [download()] and [parse()] of the page at a
      link, or the exception raised on the way *)
  newspaper_text : string -> Exc string;
  (** whether the lookup [Article.query.filter_by(link=...).first()] made
      for a source and a link raises, and in which of its two steps *)
  query_error : Source.t -> string -> option lookup_failure;
  (** whether [db.session.commit()] raises *)
  commit_error : option string
}.

(* ===================================================================== *)
(** * Entry normalizer and feed fetcher: [fetch_rss_feed] *)
(* ===================================================================== *)

Section Normalizer.

Variable lib : Lib.

(** Publication date of an entry: [now] unless one of the two date fields
    gives a value. *)
Definition resolve_published_at (now : datetime) (e : Entry.t) : datetime :=
  let published_at := replace_tzinfo_none now in
  match Entry.published_parsed e with
  | Some (Some (x :: t)) =>
      match datetime_of_tuple (firstn 6 (x :: t)) with
      | Ok d => d
      | Raise _ => published_at
      end
  | _ =>
      match Entry.published e with
      | Some s =>
          match date_parser_parse lib s with
          | Ok d =>
              match tzinfo d with
              | Some _ => replace_tzinfo_none d
              | None => d
              end
          | Raise _ => published_at
          end
      | None => published_at
      end
  end.

(** The field the description is taken from: the summary, else the
    description field, else the empty string. *)
Definition raw_description (e : Entry.t) : string :=
  match Entry.summary e with
  | Some s => s
  | None => match Entry.description e with Some d => d | None => "" end
  end.

(** Description of an entry: the markup removed, and the text cut after
    1000 characters. *)
Definition resolve_description (e : Entry.t) : string :=
  let description := raw_description e in
  if str_truthy description then
    let text := get_text lib description in
    if (1000 <? str_len text)%nat then str_take 1000 text ++ "..."
    else text
  else description.

(** Title of an entry. *)
Definition resolve_title (e : Entry.t) : string :=
  match Entry.title e with
  | Some t => str_take 500 t
  | None => "Без заголовка"
  end.

(** [entry.get('id', entry.get('link', ''))]. *)
Definition resolve_guid (e : Entry.t) : string :=
  match Entry.id e with
  | Some i => i
  | None => match Entry.link e with Some l => l | None => "" end
  end.

(** State of the [try] block that looks for an image: the value of the
    local variable [image_url], and whether the block is still running or
    has raised. *)
Inductive img_state : Type :=
| Running (image_url : option string)
| Failed (image_url : option string) (msg : string).

(** The loop over [entry.media_content]: the url of the first item whose
    type starts with [image/]. *)
Fixpoint scan_media_content (l : list media) : img_state :=
  match l with
  | [] => Running None
  | m :: l' =>
      let ty := match media_type m with Some t => t | None => "" end in
      if startswith ty "image/" then
        match media_url m with
        | Some u => Running (Some u)
        | None => Failed None "KeyError: 'url'"
        end
      else scan_media_content l'
  end.

(** The loop over [entry.enclosures]: the href of the first enclosure that
    has a type starting with [image/]. *)
Fixpoint scan_enclosures (l : list enclosure) : img_state :=
  match l with
  | [] => Running None
  | x :: l' =>
      match enc_type x with
      | Some ty =>
          if startswith ty "image/" then
            match enc_href x with
            | Some h => Running (Some h)
            | None => Failed None "AttributeError: href"
            end
          else scan_enclosures l'
      | None => scan_enclosures l'
      end
  end.

(** The [if / elif / elif] over the structured fields. *)
Definition image_from_fields (e : Entry.t) : img_state :=
  match Entry.media_content e with
  | Some (m0 :: ms) =>
      match scan_media_content (m0 :: ms) with
      | Running v =>
          if negb (truthy v) then
            match media_url m0 with
            | Some u => Running (Some u)
            | None => Failed v "KeyError: 'url'"
            end
          else Running v
      | Failed v msg => Failed v msg
      end
  | _ =>
      match Entry.media_thumbnail e with
      | Some (t0 :: _) =>
          match media_url t0 with
          | Some u => Running (Some u)
          | None => Failed None "KeyError: 'url'"
          end
      | _ =>
          match Entry.enclosures e with
          | Some (x :: xs) => scan_enclosures (x :: xs)
          | _ => Running None
          end
      end
  end.

(** The loop over the [img] tags: the first [src] that is not empty and
    starts with [http] or [/]. *)
Fixpoint scan_img_tags (srcs : list (option string)) : option string :=
  match srcs with
  | [] => None
  | Some src :: srcs' =>
      if str_truthy src && (startswith src "http" || startswith src "/")
      then Some src else scan_img_tags srcs'
  | None :: srcs' => scan_img_tags srcs'
  end.

(** The block [if not image_url:] that searches the markup of the entry. *)
Definition image_from_markup (e : Entry.t) (image_url : option string)
  : option string :=
  if negb (truthy image_url) then
    let content_to_search :=
      match Entry.content e with
      | Some (c0 :: _) => c0
      | _ => match Entry.summary e with Some s => s | None => "" end
      end in
    if str_truthy content_to_search then
      match scan_img_tags (find_all_img lib content_to_search) with
      | Some src => Some src
      | None => image_url
      end
    else image_url
  else image_url.

(** The block that completes a url that does not start with [http]; when
    [urlparse] raises, [image_url] is still the root-relative url. *)
Definition complete_image_url (source : Source.t) (image_url : option string)
  : img_state :=
  match image_url with
  | Some u =>
      if str_truthy u && negb (startswith u "http") then
        if startswith u "//" then Running (Some ("https:" ++ u))
        else if startswith u "/" then
          match urlparse lib (Source.url source) with
          | Ok (scheme, netloc) =>
              Running (Some (scheme ++ "://" ++ netloc ++ u))
          | Raise msg => Failed image_url msg
          end
        else Running (Some u)
      else Running (Some u)
  | None => Running None
  end.

(** The value of [image_url] when the [try] block is left, normally or by an
    exception. *)
Definition img_value (s : img_state) : option string :=
  match s with Running v => v | Failed v _ => v end.

(** The whole [try] block: an exception leaves [image_url] as it was when
    it was raised. *)
Definition resolve_image_url (source : Source.t) (e : Entry.t)
  : option string :=
  match image_from_fields e with
  | Running v => img_value (complete_image_url source (image_from_markup e v))
  | Failed v _ => v
  end.

(** The body of the loop over the entries: the dictionary [article_data];
    reading [entry.link] raises when the entry has no link. *)
Definition build_article_data (now : datetime) (source : Source.t)
           (e : Entry.t) : Exc article_data :=
  let published_at := resolve_published_at now e in
  let description := resolve_description e in
  let image_url := resolve_image_url source e in
  let guid := resolve_guid e in
  match Entry.link e with
  | Some l =>
      Ok {| ad_title := resolve_title e;
            ad_description := description;
            ad_link := l;
            ad_published_at := published_at;
            ad_guid := guid;
            ad_source_id := Source.id source;
            ad_category_id := Source.category_id source;
            ad_image_url := image_url;
            ad_content := None |}
  | None => Raise "AttributeError: object has no attribute 'link'"
  end.

(** [fetch_rss_feed(source)]: any exception of the body gives []. *)
Definition fetch_rss_feed (w : World) (source : Source.t)
  : list article_data :=
  match
    exc_bind (feedparser_parse w source) (fun entries =>
      exc_map (build_article_data (utcnow w) source)
              (py_slice_to entries (max_articles w)))
  with
  | Ok articles => articles
  | Raise _ => []
  end.

End Normalizer.

(* ===================================================================== *)
(** * Content enricher: [extract_article_content] *)
(* ===================================================================== *)

(** The text of the page cut to 5000 characters, or [None] when the download
    or the parse raises. *)
Definition extract_article_content (w : World) (url : string) : option string :=
  match newspaper_text w url with
  | Ok text =>
      Some (if (5000 <? str_len text)%nat then str_take 5000 text else text)
  | Raise _ => None
  end.

(* ===================================================================== *)
(** * Storage: the tables and the session *)
(* ===================================================================== *)

Record database : Type := mk_database {
  categories : list Category.t;
  sources : list Source.t;
  articles : list Article.t;
  update_logs : list UpdateLog.t
}.

(** An object handed to [db.session.add]. *)
Inductive row : Type :=
| ArticleRow (a : Article.t)
| UpdateLogRow (l : UpdateLog.t).

(** [db.session] during a cycle: the committed tables, the rows added
    since the last commit, oldest first, and whether a failed flush has
    rolled the transaction back. *)
Record session : Type := mk_session {
  stored : database;
  pending : list row;
  rolled_back : bool
}.

Definition pending_articles (st : session) : list Article.t :=
  flat_map (fun r => match r with ArticleRow a => [a] | UpdateLogRow _ => [] end)
           (pending st).

Definition pending_logs (st : session) : list UpdateLog.t :=
  flat_map (fun r => match r with UpdateLogRow l => [l] | ArticleRow _ => [] end)
           (pending st).

(** The session at the start of a cycle: nothing pending. *)
Definition fresh_session (db : database) : session :=
  {| stored := db; pending := []; rolled_back := false |}.

(** [db.session.add(obj)]. *)
Definition session_add (st : session) (r : row) : session :=
  {| stored := stored st;
     pending := (pending st ++ [r])%list;
     rolled_back := rolled_back st |}.

(** The session after a flush that raised: the pending rows are expunged
    and the transaction is rolled back. *)
Definition flush_failed (st : session) : session :=
  {| stored := stored st; pending := []; rolled_back := true |}.

(** [db.session.commit()] when it succeeds: every pending row reaches its
    table. *)
Definition commit (st : session) : database :=
  {| categories := categories (stored st);
     sources := sources (stored st);
     articles := (articles (stored st) ++ pending_articles st)%list;
     update_logs := (update_logs (stored st) ++ pending_logs st)%list |}.

(** [db.session.rollback()]: the pending rows are dropped. *)
Definition rollback (st : session) : database := stored st.

(** The rows of [articles] a query of the session sees: the session flushes
    its pending rows before it runs a query (SQLAlchemy's autoflush, left at
    its default by the application), so the rows staged earlier in the cycle
    are visible next to the committed ones. *)
Definition visible_articles (st : session) : list Article.t :=
  (articles (stored st) ++ pending_articles st)%list.

(** [Article.query.filter_by(link=link).first()]. *)
Definition query_first_by_link (st : session) (link : string)
  : option Article.t :=
  find (fun a => Article.link a =? link) (visible_articles st).

(** The constructor [Article] applied to the keys of [article_data]. *)
Definition new_article (ad : article_data) : Article.t :=
  {| Article.title := ad_title ad;
     Article.description := ad_description ad;
     Article.content := ad_content ad;
     Article.link := ad_link ad;
     Article.image_url := ad_image_url ad;
     Article.published_at := ad_published_at ad;
     Article.category_id := ad_category_id ad;
     Article.source_id := ad_source_id ad;
     Article.is_active := true;
     Article.view_count := 0%Z;
     Article.guid := ad_guid ad |}.

(** [article_data['content'] = full_content]. *)
Definition set_content (ad : article_data) (c : string) : article_data :=
  {| ad_title := ad_title ad;
     ad_description := ad_description ad;
     ad_link := ad_link ad;
     ad_published_at := ad_published_at ad;
     ad_guid := ad_guid ad;
     ad_source_id := ad_source_id ad;
     ad_category_id := ad_category_id ad;
     ad_image_url := ad_image_url ad;
     ad_content := Some c |}.

(* ===================================================================== *)
(** * Source run orchestrator: [update_news] *)
(* ===================================================================== *)

Section Orchestrator.

Variable lib : Lib.
Variable w : World.

(** One turn of the loop over [articles_data]: the session afterwards, and
    either whether an article was staged or the exception of the lookup. *)
Definition stage_article (source : Source.t) (ad : article_data)
           (st : session) : session * Exc bool :=
  match query_error w source (ad_link ad) with
  | Some (FlushFailed msg) => (flush_failed st, Raise msg)
  | Some (SelectFailed msg) => (st, Raise msg)
  | None =>
      match query_first_by_link st (ad_link ad) with
      | Some _ => (st, Ok false)
      | None =>
          let full_content := extract_article_content w (ad_link ad) in
          let ad' :=
            match full_content with
            | Some c => if str_truthy c then set_content ad c else ad
            | None => ad
            end in
          (session_add st (ArticleRow (new_article ad')), Ok true)
      end
  end.

(** The loop over [articles_data], with [new_articles_count]. *)
Fixpoint stage_articles (source : Source.t) (articles_data : list article_data)
         (new_articles_count : nat) (st : session) : session * Exc nat :=
  match articles_data with
  | [] => (st, Ok new_articles_count)
  | ad :: rest =>
      match stage_article source ad st with
      | (st', Ok true) => stage_articles source rest (S new_articles_count) st'
      | (st', Ok false) => stage_articles source rest new_articles_count st'
      | (st', Raise msg) => (st', Raise msg)
      end
  end.

Definition success_log (source : Source.t) (processed new_articles_count : nat)
  : UpdateLog.t :=
  {| UpdateLog.source_id := Source.id source;
     UpdateLog.status := "success";
     UpdateLog.message :=
       "Успешно обработано " ++ str_of_nat processed ++ " статей, "
       ++ str_of_nat new_articles_count ++ " новых";
     UpdateLog.articles_count := new_articles_count |}.

Definition error_log (source : Source.t) (msg : string) : UpdateLog.t :=
  {| UpdateLog.source_id := Source.id source;
     UpdateLog.status := "error";
     UpdateLog.message := "Ошибка: " ++ msg;
     UpdateLog.articles_count := 0 |}.

(** The body of the loop over the sources: the [try] and its [except],
    on the session and on [total_new_articles].  The handler reads
    [source.name] first: after a failed flush the source is expired, the
    read is a statement, and [PendingRollbackError] is raised inside the
    handler.  Nothing catches it: no log row is added, the sources that
    follow are not processed (their turn leaves the pair as it is) and
    [total_new_articles] is lost with the frame, which the pair writes as
    0. *)
Definition update_source (acc : session * nat) (source : Source.t)
  : session * nat :=
  let (st, total_new_articles) := acc in
  if rolled_back st then acc
  else
    let articles_data := fetch_rss_feed lib w source in
    match stage_articles source articles_data 0 st with
    | (st', Ok new_articles_count) =>
        (session_add st'
           (UpdateLogRow
              (success_log source (length articles_data) new_articles_count)),
         total_new_articles + new_articles_count)
    | (st', Raise msg) =>
        if rolled_back st' then (st', 0)
        else (session_add st' (UpdateLogRow (error_log source msg)),
              total_new_articles)
    end.

(** The loop over a list of sources. *)
Definition update_sources (l : list Source.t) (acc : session * nat)
  : session * nat :=
  fold_left update_source l acc.

(** [Source.query.filter_by(is_active=True).all()]. *)
Definition active_sources (db : database) : list Source.t :=
  filter Source.is_active (sources db).

(** The cycle up to, and without, the commit: the session and
    [total_new_articles]. *)
Definition run_cycle (db : database) : session * nat :=
  update_sources (active_sources db) (fresh_session db, 0).

(** Whether [update_news()] ends by the exception raised in the handler of
    a source. *)
Definition update_news_raises (db : database) : bool :=
  rolled_back (fst (run_cycle db)).

(** [update_news()]: the tables after the cycle.  When the exception of a
    handler leaves the function the commit is not reached, and the session
    is removed with the application context. *)
Definition update_news (db : database) : database :=
  let st := fst (run_cycle db) in
  if rolled_back st then stored st
  else
    match commit_error w with
    | None => commit st
    | Some _ => rollback st
    end.

End Orchestrator.

(* ===================================================================== *)
(** * Read side: the queries of the views *)
(* ===================================================================== *)

(** [datetime.now(timezone.utc).replace(tzinfo=None) - timedelta(days=7)],
    as a position on the time line. *)
Definition seven_days_ago (now : datetime) : Z :=
  (timestamp (replace_tzinfo_none now) - timedelta_days 7)%Z.

(** [Article.published_at >= seven_days_ago]. *)
Definition published_since (bound : Z) (a : Article.t) : bool :=
  (bound <=? timestamp (Article.published_at a))%Z.

(** [order_by(Article.published_at.desc())]. *)
Fixpoint insert_desc (a : Article.t) (l : list Article.t) : list Article.t :=
  match l with
  | [] => [a]
  | b :: l' =>
      if (timestamp (Article.published_at b) <? timestamp (Article.published_at a))%Z
      then a :: b :: l'
      else b :: insert_desc a l'
  end.

Definition order_by_published_desc (l : list Article.t) : list Article.t :=
  fold_right insert_desc [] l.

(** The result of [paginate]: the rows of the page and the size of the whole
    query. *)
Record pagination : Type := mk_pagination {
  items : list Article.t;
  total : nat
}.

(** [query.paginate(page=page, per_page=per_page, error_out=False)]: a page
    or a page size below one is replaced by 1 and by 20. *)
Definition paginate (q : list Article.t) (page per_page : Z) : pagination :=
  let page := if (page <? 1)%Z then 1%Z else page in
  let per_page := if (per_page <? 1)%Z then 20%Z else per_page in
  {| items := firstn (Z.to_nat per_page)
                     (skipn (Z.to_nat ((page - 1) * per_page)) q);
     total := length q |}.

(** [request.args.get(name, default, type=int)]. *)
Definition arg_default (a : option Z) (d : Z) : Z :=
  match a with Some v => v | None => d end.

(** [if source_id: query = query.filter_by(source_id=source_id)]. *)
Definition filter_source (source_id : option Z) (q : list Article.t)
  : list Article.t :=
  match source_id with
  | Some sid =>
      if (sid =? 0)%Z then q
      else filter (fun a => (Article.source_id a =? sid)%Z) q
  | None => q
  end.

(** [Category.query.filter_by(name=category_name).first_or_404()]; [None] is
    the 404 answer. *)
Definition category_by_name (db : database) (category_name : string)
  : option Category.t :=
  find (fun c => Category.name c =? category_name) (categories db).

(** The view [/]: the articles of the page. *)
Definition index (db : database) (now : datetime) (page source : option Z)
  : pagination :=
  let page := arg_default page 1 in
  let per_page := 20%Z in
  let query :=
    filter (published_since (seven_days_ago now))
           (filter Article.is_active (articles db)) in
  let query := filter_source source query in
  paginate (order_by_published_desc query) page per_page.

(** The view [/category/<category_name>]. *)
Definition category_news (db : database) (now : datetime)
           (category_name : string) (page source : option Z)
  : option pagination :=
  match category_by_name db category_name with
  | None => None
  | Some category =>
      let page := arg_default page 1 in
      let per_page := 20%Z in
      let query :=
        filter (published_since (seven_days_ago now))
               (filter (fun a =>
                          (Article.category_id a =? Category.id category)%Z
                          && Article.is_active a)
                       (articles db)) in
      let query := filter_source source query in
      Some (paginate (order_by_published_desc query) page per_page)
  end.

(** The endpoint [/api/news]. *)
Definition api_news (db : database) (now : datetime) (page per_page : option Z)
  : pagination :=
  let page := arg_default page 1 in
  let per_page := Z.min (arg_default per_page 20) 100 in
  paginate
    (order_by_published_desc
       (filter (published_since (seven_days_ago now))
               (filter Article.is_active (articles db))))
    page per_page.

(** The endpoint [/api/news/<category_name>]. *)
Definition api_category_news (db : database) (now : datetime)
           (category_name : string) (page per_page : option Z)
  : option pagination :=
  match category_by_name db category_name with
  | None => None
  | Some category =>
      let page := arg_default page 1 in
      let per_page := Z.min (arg_default per_page 20) 100 in
      Some (paginate
              (order_by_published_desc
                 (filter (published_since (seven_days_ago now))
                         (filter (fun a =>
                                    (Article.category_id a =? Category.id category)%Z
                                    && Article.is_active a)
                                 (articles db))))
              page per_page)
  end.

(** The answer of [/api/stats]. *)
Record stats : Type := mk_stats {
  total_articles : nat;
  total_sources : nat;
  stats_categories : list (string * string * nat)
}.

(** The query counted by the statistics for one category. *)
Definition category_recent (db : database) (now : datetime) (c : Category.t)
  : list Article.t :=
  filter (published_since (seven_days_ago now))
         (filter (fun a =>
                    (Article.category_id a =? Category.id c)%Z
                    && Article.is_active a)
                 (articles db)).

(** The endpoint [/api/stats]. *)
Definition api_stats (db : database) (now : datetime) : stats :=
  {| total_articles :=
       length (filter (published_since (seven_days_ago now))
                      (filter Article.is_active (articles db)));
     total_sources := length (filter Source.is_active (sources db));
     stats_categories :=
       map (fun c => (Category.name c, Category.display_name c,
                      length (category_recent db now c)))
           (categories db) |}.

(* ===================================================================== *)
(** * Views that write: [article_detail] and [add_source] *)
(* ===================================================================== *)

(** What a view answers: a page, the 404 of [get_or_404], or the exception
    that left the view. *)
Inductive response (A : Type) : Type :=
| Rendered (page : A)
| NotFound
| ServerError (msg : string).
Arguments Rendered {A} page.
Arguments NotFound {A}.
Arguments ServerError {A} msg.

(** Position of the first row whose id is [x] in an [id] column. *)
Fixpoint index_of (ids : list Z) (x : Z) : option nat :=
  match ids with
  | [] => None
  | i :: ids' =>
      if (i =? x)%Z then Some 0
      else match index_of ids' x with Some k => Some (S k) | None => None end
  end.

(** [Article.query.get(article_id)]; [ids] is the [id] column of
    [articles], row by row. *)
Definition article_by_id (ids : list Z) (db : database) (article_id : Z)
  : option (nat * Article.t) :=
  match index_of ids article_id with
  | Some k =>
      match nth_error (articles db) k with
      | Some a => Some (k, a)
      | None => None
      end
  | None => None
  end.

(** [article.view_count += 1]. *)
Definition add_view (a : Article.t) : Article.t :=
  {| Article.title := Article.title a;
     Article.description := Article.description a;
     Article.content := Article.content a;
     Article.link := Article.link a;
     Article.image_url := Article.image_url a;
     Article.published_at := Article.published_at a;
     Article.category_id := Article.category_id a;
     Article.source_id := Article.source_id a;
     Article.is_active := Article.is_active a;
     Article.view_count := (Article.view_count a + 1)%Z;
     Article.guid := Article.guid a |}.

(** The row at position [k] replaced. *)
Fixpoint set_row {A : Type} (l : list A) (k : nat) (x : A) : list A :=
  match l, k with
  | [], _ => []
  | _ :: l', O => x :: l'
  | y :: l', S k' => y :: set_row l' k' x
  end.

(** The tables with the article at position [k] replaced. *)
Definition store_article (db : database) (k : nat) (a : Article.t) : database :=
  {| categories := categories db;
     sources := sources db;
     articles := set_row (articles db) k a;
     update_logs := update_logs db |}.

(** The query of the similar articles: same category and active, another
    id, dated since [bound], newest first, five at most. *)
Definition similar_query (ids : list Z) (db : database) (bound : Z)
           (article : Article.t) (article_id : Z) : list Article.t :=
  firstn 5
    (order_by_published_desc
       (map snd
          (filter (fun r => published_since bound (snd r))
             (filter (fun r => negb (fst r =? article_id)%Z)
                (filter (fun r =>
                           (Article.category_id (snd r)
                            =? Article.category_id article)%Z
                           && Article.is_active (snd r))
                        (combine ids (articles db))))))).

(** What [article.html] is given. *)
Record article_page : Type := mk_article_page {
  shown : Article.t;
  similar_articles : list Article.t
}.

(** The view [/article/<article_id>]: the tables afterwards and the answer.
    [commit_error] tells whether [db.session.commit()] raises; the commit is
    not in a [try], so its exception leaves the view and nothing is
    stored. *)
Definition article_detail (ids : list Z) (db : database) (now : datetime)
           (commit_error : option string) (article_id : Z)
  : database * response article_page :=
  match article_by_id ids db article_id with
  | None => (db, NotFound)
  | Some (k, found) =>
      let article := add_view found in
      match commit_error with
      | Some msg => (db, ServerError msg)
      | None =>
          let db' := store_article db k article in
          (db',
           Rendered {| shown := article;
                       similar_articles :=
                         similar_query ids db' (seven_days_ago now)
                                       article article_id |})
      end
  end.

(** [request.form] of the page that adds a source: each field as
    [request.form.get] gives it. *)
Record source_form : Type := mk_source_form {
  form_name : option string;
  form_url : option string;
  form_rss_url : option string;
  form_category_id : option string
}.

Inductive http_method : Type := GET | POST.

(** The answers of [add_source]: the form, a redirect to the form or to the
    dashboard with the flashed message, or the exception of [int] that
    nothing catches. *)
Inductive add_source_answer : Type :=
| FormPage (flashed : option string)
| RedirectToForm (flashed : string)
| RedirectToDashboard (flashed : string)
| Unhandled (msg : string).

(** The id the database gives a new row: one more than the largest id. *)
Definition next_id (ids : list Z) : Z := (1 + fold_right Z.max 0 ids)%Z.

(** Whether the commit of a new source raises: the column [name] is
    declared [unique], so a name already in the table is refused; [other]
    stands for any other failure of the database. *)
Definition source_commit_error (db : database) (s : Source.t)
           (other : option string) : option string :=
  if existsb (fun s' => Source.name s' =? Source.name s) (sources db)
  then Some "IntegrityError: sources.name"
  else other.

Definition insert_source (db : database) (s : Source.t) : database :=
  {| categories := categories db;
     sources := (sources db ++ [s])%list;
     articles := articles db;
     update_logs := update_logs db |}.

(** The view [/admin/add_source]. [py_int] is [int] on a string. *)
Definition add_source (py_int : string -> Exc Z) (db_error : option string)
           (db : database) (method : http_method) (form : source_form)
  : database * add_source_answer :=
  match method with
  | GET => (db, FormPage None)
  | POST =>
      let name := form_name form in
      let url := form_url form in
      let rss_url := form_rss_url form in
      let category_id := form_category_id form in
      if negb (truthy name && truthy url && truthy rss_url
               && truthy category_id)
      then (db, RedirectToForm "Все поля обязательны для заполнения!")
      else
        match name, url, rss_url, category_id with
        | Some name, Some url, Some rss_url, Some category_id =>
            match py_int category_id with
            | Raise msg => (db, Unhandled msg)
            | Ok c =>
                let new_source :=
                  {| Source.id := next_id (map Source.id (sources db));
                     Source.name := name;
                     Source.url := url;
                     Source.rss_url := rss_url;
                     Source.category_id := c;
                     Source.is_active := true |} in
                match source_commit_error db new_source db_error with
                | None =>
                    (insert_source db new_source,
                     RedirectToDashboard "Источник успешно добавлен!")
                | Some msg =>
                    (db, FormPage
                           (Some ("Ошибка добавления источника: " ++ msg)))
                end
            end
        | _, _, _, _ =>
            (db, RedirectToForm "Все поля обязательны для заполнения!")
        end
  end.

(* ===================================================================== *)
(** * The image priority chain, as the specification words it *)
(* ===================================================================== *)

Definition is_image_media (m : media) : bool :=
  match media_type m with Some t => startswith t "image/" | None => false end.







(** The scheme and the host of the source's own url, when it has them. *)
Definition parsed_url (lib : Lib) (source : Source.t)
  : option (string * string) :=
  match urlparse lib (Source.url source) with
  | Ok p => Some p
  | Raise _ => None
  end.

(** A protocol-relative url gets [https:], a root-relative one the scheme
    and the host of the source in front; without them it stays as it is. *)
Definition chain_normalize (parsed : option (string * string)) (u : string)
  : string :=
  if startswith u "//" then "https:" ++ u
  else if startswith u "/" then
    match parsed with
    | Some (scheme, netloc) => scheme ++ "://" ++ netloc ++ u
    | None => u
    end
  else u.





(* ===================================================================== *)
(** * Predicates used in the statements *)
(* ===================================================================== *)

(** [hasattr(entry, 'published_parsed') and entry.published_parsed]. *)
Definition has_parsed_date (e : Entry.t) : bool :=
  match Entry.published_parsed e with
  | Some (Some (_ :: _)) => true
  | _ => false
  end.


(** The record an article is built from after enrichment: [article_data]
    with the key [content] when [extract_article_content] gave a text that
    is not empty. *)
Definition enriched (w : World) (ad : article_data) : article_data :=
  match extract_article_content w (ad_link ad) with
  | Some c => if str_truthy c then set_content ad c else ad
  | None => ad
  end.

(** The links of a list of articles, and the links a session sees. *)
Definition article_links (l : list Article.t) : list string :=
  map Article.link l.

Definition visible_links (st : session) : list string :=
  article_links (visible_articles st).


(** The filter every listing applies: the article is active and is dated
    no earlier than seven days before [now]. *)
Definition listed (now : datetime) (a : Article.t) : bool :=
  Article.is_active a && published_since (seven_days_ago now) a.

(** An article dated within the seven days that end at [now]. *)
Definition within_last_7_days (now : datetime) (a : Article.t) : Prop :=
  (timestamp (replace_tzinfo_none now) - timedelta_days 7
   <= timestamp (Article.published_at a)
   <= timestamp (replace_tzinfo_none now))%Z.

(** The position on the time line of the UTC wall clock of a datetime: that
    of [d.astimezone(timezone.utc)] for an aware value, of the value itself
    for a naive one. *)
Definition utc_timestamp (d : datetime) : Z :=
  match tzinfo d with
  | Some offset => (timestamp d - offset * 60 * 1000000)%Z
  | None => timestamp d
  end.

(** An article dated no earlier than seven days before [now]. *)
Definition not_older_than_7_days (now : datetime) (a : Article.t) : Prop :=
  (timestamp (replace_tzinfo_none now) - timedelta_days 7
   <= timestamp (Article.published_at a))%Z.

(** The sum of the counts of a list of log rows. *)
Definition sum_counts (logs : list UpdateLog.t) : nat :=
  fold_right (fun lg n => UpdateLog.articles_count lg + n) 0 logs.

(** A list of articles in the order of a listing: none is dated after one
    that stands before it. *)
Definition newest_first (l : list Article.t) : Prop :=
  StronglySorted
    (fun a b => (timestamp (Article.published_at b)
                 <= timestamp (Article.published_at a))%Z) l.

(** All four fields of the form are there and none is empty. *)
Definition form_complete (form : source_form) : bool :=
  truthy (form_name form) && truthy (form_url form)
  && truthy (form_rss_url form) && truthy (form_category_id form).

(** [n] views of the same article, one after the other, each committed. *)
Fixpoint view_times (n : nat) (ids : list Z) (db : database) (now : datetime)
         (article_id : Z) : database :=
  match n with
  | O => db
  | S n' => view_times n' ids (fst (article_detail ids db now None article_id))
                       now article_id
  end.

(* ===================================================================== *)
(** * Sample library, feeds and tables *)
(* ===================================================================== *)

(** A tag stripper in the manner of [get_text]: what stands between [<] and
    [>] is dropped. *)
Fixpoint strip_tags (in_tag : bool) (s : string) : string :=
  match s with
  | EmptyString => EmptyString
  | String c s' =>
      if (c =? "<")%char then strip_tags true s'
      else if (c =? ">")%char then strip_tags false s'
      else if in_tag then strip_tags in_tag s'
      else String c (strip_tags in_tag s')
  end.

Definition is_alpha (c : ascii) : bool :=
  let n := nat_of_ascii c in
  ((65 <=? n) && (n <=? 90) || (97 <=? n) && (n <=? 122))%nat.

Definition is_scheme_char (c : ascii) : bool :=
  let n := nat_of_ascii c in
  is_alpha c || ((48 <=? n) && (n <=? 57))%nat
  || (c =? "+")%char || (c =? "-")%char || (c =? ".")%char.

Definition lower (c : ascii) : ascii :=
  let n := nat_of_ascii c in
  if ((65 <=? n) && (n <=? 90))%nat then ascii_of_nat (n + 32) else c.

Fixpoint str_forallb (p : ascii -> bool) (s : string) : bool :=
  match s with
  | EmptyString => true
  | String c s' => p c && str_forallb p s'
  end.

Fixpoint str_map (f : ascii -> ascii) (s : string) : string :=
  match s with
  | EmptyString => EmptyString
  | String c s' => String (f c) (str_map f s')
  end.

(** [url.find(':')]: the text before the first colon and the text after. *)
Fixpoint split_colon (s : string) : option (string * string) :=
  match s with
  | EmptyString => None
  | String c s' =>
      if (c =? ":")%char then Some (EmptyString, s')
      else match split_colon s' with
           | Some (a, b) => Some (String c a, b)
           | None => None
           end
  end.

(** The network location: up to the first of [/], [?] and [#]. *)
Fixpoint take_netloc (s : string) : string :=
  match s with
  | EmptyString => EmptyString
  | String c s' =>
      if (c =? "/")%char || (c =? "?")%char || (c =? "#")%char then EmptyString
      else String c (take_netloc s')
  end.

Fixpoint str_mem (x : ascii) (s : string) : bool :=
  match s with
  | EmptyString => false
  | String c s' => (c =? x)%char || str_mem x s'
  end.

(** [urlparse(url)], its scheme and its network location; a network
    location with one square bracket and not the other is refused. *)
Definition py_urlparse (url : string) : Exc (string * string) :=
  let (scheme, rest) :=
    match split_colon url with
    | Some (String c0 pre, post) =>
        if is_alpha c0 && str_forallb is_scheme_char (String c0 pre)
        then (str_map lower (String c0 pre), post)
        else (EmptyString, url)
    | _ => (EmptyString, url)
    end in
  match rest with
  | String "/" (String "/" r) =>
      let netloc := take_netloc r in
      if xorb (str_mem "[" netloc) (str_mem "]" netloc)
      then Raise "ValueError: Invalid IPv6 URL"
      else Ok (scheme, netloc)
  | _ => Ok (scheme, EmptyString)
  end.

(** The [img] tags of the sample documents. *)
Definition sample_find_all_img (html : string) : list (option string) :=
  if html =? "<p>x</p><img src='/img/a.jpg'>" then [Some "/img/a.jpg"]
  else if html =? "<img alt='n'><img src='data:x'><img src='https://i.example.com/b.png'>"
       then [None; Some "data:x"; Some "https://i.example.com/b.png"]
       else [].

(** The dates of the sample feeds. *)
Definition sample_date_parse (s : string) : Exc datetime :=
  if s =? "Mon, 08 Jan 2024 12:00:00 +0300"
  then Ok (mk_datetime 2024 1 8 12 0 0 0 (Some 180%Z))
  else if s =? "2024-01-09 07:30:00"
       then Ok (mk_datetime 2024 1 9 7 30 0 0 None)
       else Raise "ParserError".

Definition sample_lib : Lib :=
  {| get_text := strip_tags false;
     find_all_img := sample_find_all_img;
     date_parser_parse := sample_date_parse;
     urlparse := py_urlparse |}.

Definition cat_world : Category.t :=
  Category.mk 1 "world" "World" None.

Definition src_news : Source.t :=
  Source.mk 1 "News" "https://news.example.com/" "https://news.example.com/rss" 1 true.

Definition src_tech : Source.t :=
  Source.mk 2 "Tech" "https://tech.example.org/" "https://tech.example.org/feed" 1 true.

Definition src_off : Source.t :=
  Source.mk 3 "Off" "https://off.example.net/" "https://off.example.net/rss" 1 false.

(** An entry with nothing but a title, a summary and, maybe, a link. *)
Definition plain_entry (title : string) (link : option string) : Entry.t :=
  {| Entry.title := Some title;
     Entry.summary := Some "<p>text</p>";
     Entry.description := None;
     Entry.link := link;
     Entry.id := None;
     Entry.published_parsed := None;
     Entry.published := None;
     Entry.media_content := None;
     Entry.media_thumbnail := None;
     Entry.enclosures := None;
     Entry.content := None |}.

(** A title of [n] times the letter я. *)
Fixpoint cyrillic_title (n : nat) : string :=
  match n with
  | O => ""
  | S n' => "я" ++ cyrillic_title n'
  end.

Definition entry_a : Entry.t := plain_entry "A" (Some "https://news.example.com/a").
Definition entry_b : Entry.t := plain_entry "B" (Some "https://news.example.com/b").
Definition entry_t : Entry.t := plain_entry "T" (Some "https://tech.example.org/t").
Definition entry_no_link : Entry.t := plain_entry "N" None.


(** An entry whose only image is a root-relative [img] of its summary, and
    whose date is a free-form string with an offset. *)
Definition entry_rooted : Entry.t :=
  {| Entry.title := None;
     Entry.summary := Some "<p>x</p><img src='/img/a.jpg'>";
     Entry.description := None;
     Entry.link := Some "https://news.example.com/r";
     Entry.id := None;
     Entry.published_parsed := None;
     Entry.published := Some "Mon, 08 Jan 2024 12:00:00 +0300";
     Entry.media_content := None;
     Entry.media_thumbnail := None;
     Entry.enclosures := None;
     Entry.content := None |}.



Definition sample_now : datetime := mk_datetime 2024 1 10 12 0 0 0 (Some 0%Z).

Definition sample_db : database :=
  {| categories := [cat_world];
     sources := [src_news; src_tech; src_off];
     articles := [];
     update_logs := [] |}.

Definition sample_text (url : string) : Exc string :=
  if url =? "https://news.example.com/a" then Ok "body of a"
  else if url =? "https://news.example.com/b" then Ok ""
  else Raise "download failed".

(** Both feeds answer; the first one repeats an entry. *)
Definition world_ok : World :=
  {| feedparser_parse := fun s =>
       if (Source.id s =? 1)%Z then Ok [entry_a; entry_b; entry_a]
       else if (Source.id s =? 2)%Z then Ok [entry_t]
       else Ok [];
     utcnow := sample_now;
     max_articles := 50;
     newspaper_text := sample_text;
     query_error := fun _ _ => None;
     commit_error := None |}.

(** The fetch of the first feed raises. *)
Definition world_fetch_fails : World :=
  {| feedparser_parse := fun s =>
       if (Source.id s =? 1)%Z then Raise "timed out"
       else if (Source.id s =? 2)%Z then Ok [entry_t]
       else Ok [];
     utcnow := sample_now;
     max_articles := 50;
     newspaper_text := sample_text;
     query_error := fun _ _ => None;
     commit_error := None |}.

(** The second entry of the first feed has no link. *)
Definition world_missing_link : World :=
  {| feedparser_parse := fun s =>
       if (Source.id s =? 1)%Z then Ok [entry_a; entry_no_link; entry_b]
       else if (Source.id s =? 2)%Z then Ok [entry_t]
       else Ok [];
     utcnow := sample_now;
     max_articles := 50;
     newspaper_text := sample_text;
     query_error := fun _ _ => None;
     commit_error := None |}.

(** An article dated one day after [sample_now]. *)
Definition article_tomorrow : Article.t :=
  {| Article.title := "F";
     Article.description := "";
     Article.content := None;
     Article.link := "https://news.example.com/f";
     Article.image_url := None;
     Article.published_at := mk_datetime 2024 1 11 12 0 0 0 None;
     Article.category_id := 1;
     Article.source_id := 1;
     Article.is_active := true;
     Article.view_count := 0;
     Article.guid := "" |}.

(** An article dated a month before [sample_now]. *)
Definition article_last_month : Article.t :=
  {| Article.title := "O";
     Article.description := "";
     Article.content := None;
     Article.link := "https://news.example.com/o";
     Article.image_url := None;
     Article.published_at := mk_datetime 2023 12 10 12 0 0 0 None;
     Article.category_id := 1;
     Article.source_id := 1;
     Article.is_active := true;
     Article.view_count := 0;
     Article.guid := "" |}.

Definition dated_db : database :=
  {| categories := [cat_world];
     sources := [src_news];
     articles := [article_last_month; article_tomorrow];
     update_logs := [] |}.

(** The record of [entry_t], whose page cannot be downloaded. *)
Definition record_t : article_data :=
  {| ad_title := "T";
     ad_description := "text";
     ad_link := "https://tech.example.org/t";
     ad_published_at := mk_datetime 2024 1 10 12 0 0 0 None;
     ad_guid := "https://tech.example.org/t";
     ad_source_id := 2;
     ad_category_id := 1;
     ad_image_url := None;
     ad_content := None |}.

(** The lookup of the second link of the first feed raises. *)
Definition world_lookup_fails : World :=
  {| feedparser_parse := feedparser_parse world_ok;
     utcnow := sample_now;
     max_articles := 50;
     newspaper_text := sample_text;
     query_error := fun _ link =>
       if link =? "https://news.example.com/b"
       then Some (SelectFailed "connection lost")
       else None;
     commit_error := None |}.



(** The sample tables after one cycle, and the ids of their articles. *)
Definition filled_db : database := update_news sample_lib world_ok sample_db.

Definition filled_ids : list Z := [11; 12; 13]%Z.

(** [int] on the strings of the sample forms. *)
Definition sample_int (s : string) : Exc Z :=
  if s =? "1" then Ok 1%Z
  else if s =? "2" then Ok 2%Z
  else Raise "ValueError: invalid literal for int()".

Definition sample_form : source_form :=
  {| form_name := Some "Science";
     form_url := Some "https://science.example.org/";
     form_rss_url := Some "https://science.example.org/rss";
     form_category_id := Some "1" |}.

(* ===================================================================== *)
(** * Properties *)
(* ===================================================================== *)

(** ** Strings and lists *)

Lemma str_take_length n s :
  str_len (str_take n s) = Nat.min n (str_len s).
Proof.
  revert n; induction s as [|c s IH]; intros n; simpl; [lia|].
  destruct (is_continuation c) eqn:E; simpl; rewrite ?E.
  - apply IH.
  - destruct n as [|n]; simpl; rewrite ?E; [reflexivity|].
    rewrite IH. reflexivity.
Qed.

Lemma str_take_all n s : str_len s <= n -> str_take n s = s.
Proof.
  revert n; induction s as [|c s IH]; intros n; simpl; intros H;
    [reflexivity|].
  destruct (is_continuation c).
  - f_equal. apply IH. exact H.
  - destruct n as [|n]; [lia|]. f_equal. apply IH. lia.
Qed.

Lemma str_append_length a b :
  str_len (a ++ b) = str_len a + str_len b.
Proof.
  induction a as [|c a IH]; simpl; [reflexivity|].
  destruct (is_continuation c); rewrite IH; reflexivity.
Qed.


Lemma startswith_http_not_slash u :
  startswith u "http" = true -> startswith u "/" = false.
Proof.
  unfold startswith. destruct u as [|c u]; cbn [prefix];
    [intros H; discriminate H|].
  destruct (ascii_dec "h" c) as [<-|]; [|intros H; discriminate H].
  intros _. destruct (ascii_dec "/" "h") as [E|]; [discriminate E | reflexivity].
Qed.

Lemma startswith_slash2_slash u :
  startswith u "//" = true -> startswith u "/" = true.
Proof.
  unfold startswith. destruct u as [|c u]; cbn [prefix];
    [intros H; discriminate H|].
  destruct (ascii_dec "/" c); [|intros H; discriminate H].
  intros _. destruct u; reflexivity.
Qed.

Lemma not_slash_not_slash2 u :
  startswith u "/" = false -> startswith u "//" = false.
Proof.
  intros H. destruct (startswith u "//") eqn:E; [|reflexivity].
  apply startswith_slash2_slash in E. congruence.
Qed.




(** ** The entry normalizer *)

Section NormalizerFacts.

Variable lib : Lib.







Lemma build_article_data_inv now source e ad :
  build_article_data lib now source e = Ok ad ->
  Entry.link e = Some (ad_link ad) /\
  ad_title ad = resolve_title e /\
  ad_description ad = resolve_description lib e /\
  ad_published_at ad = resolve_published_at lib now e /\
  ad_image_url ad = resolve_image_url lib source e /\
  ad_content ad = None.
Proof.
  unfold build_article_data.
  destruct (Entry.link e) as [l|]; [|discriminate].
  intros [= <-]. simpl. repeat split.
Qed.


(** C7. The title of a record is the title of the entry cut to 500
    characters, exactly 500 when the title is longer, and a fixed
    placeholder when the entry has no title; its description is the text
    left by tag stripping, cut to 1000 characters followed by three dots
    when that text is longer than 1000. *)
Theorem title_and_description_truncated (e : Entry.t) :
  (forall t,
      Entry.title e = Some t ->
      resolve_title e = str_take 500 t
      /\ (500 < str_len t -> str_len (resolve_title e) = 500)
      /\ (str_len t <= 500 -> resolve_title e = t))
  /\ (Entry.title e = None -> resolve_title e = "Без заголовка")
  /\ (raw_description e = "" -> resolve_description lib e = "")
  /\ (raw_description e <> "" ->
      str_len (get_text lib (raw_description e)) <= 1000 ->
      resolve_description lib e = get_text lib (raw_description e))
  /\ (raw_description e <> "" ->
      1000 < str_len (get_text lib (raw_description e)) ->
      resolve_description lib e
      = str_take 1000 (get_text lib (raw_description e)) ++ "..."
      /\ str_len (resolve_description lib e) = 1003)
  /\ (forall now source ad,
        build_article_data lib now source e = Ok ad ->
        ad_title ad = resolve_title e /\
        ad_description ad = resolve_description lib e).
Proof.
  split.
  { intros t Ht. unfold resolve_title. rewrite Ht.
    split; [reflexivity|]. split.
    - intros Hlen. rewrite str_take_length. lia.
    - intros Hlen. apply str_take_all. exact Hlen. }
  split.
  { intros Ht. unfold resolve_title. rewrite Ht. reflexivity. }
  split.
  { intros H. unfold resolve_description. rewrite H. reflexivity. }
  assert (Htruthy : raw_description e <> "" ->
                    str_truthy (raw_description e) = true).
  { destruct (raw_description e); [congruence | reflexivity]. }
  split.
  { intros Hne Hlen. unfold resolve_description.
    rewrite (Htruthy Hne).
    destruct (Nat.ltb_spec 1000 (str_len (get_text lib (raw_description e))));
      [lia | reflexivity]. }
  split.
  { intros Hne Hlen. unfold resolve_description.
    rewrite (Htruthy Hne).
    destruct (Nat.ltb_spec 1000 (str_len (get_text lib (raw_description e))));
      [|lia].
    split; [reflexivity|].
    rewrite str_append_length, str_take_length.
    change (str_len "...") with 3. lia. }
  intros now source ad H.
  destruct (build_article_data_inv _ _ _ _ H) as (_ & Ht & Hd & _).
  auto.
Qed.

End NormalizerFacts.

(** ** The image of an entry *)

Section ImageFacts.

Variable lib : Lib.

(** The completion of a url is the normalization of the chain. *)
Lemma complete_image_url_normalize source o :
  img_value (complete_image_url lib source o)
  = option_map (chain_normalize (parsed_url lib source)) o.
Proof.
  destruct o as [u|]; [|reflexivity].
  unfold complete_image_url, chain_normalize, parsed_url; simpl.
  destruct u as [|c u]; [reflexivity|].
  cbn [str_truthy andb].
  destruct (startswith (String c u) "http") eqn:Hh; cbn [negb].
  - rewrite (startswith_http_not_slash _ Hh).
    destruct (startswith (String c u) "//") eqn:H2; [|reflexivity].
    apply startswith_slash2_slash in H2.
    rewrite (startswith_http_not_slash _ Hh) in H2. discriminate H2.
  - destruct (startswith (String c u) "//"); [reflexivity|].
    destruct (startswith (String c u) "/"); [|reflexivity].
    destruct (urlparse lib (Source.url source)) as [[scheme netloc]|msg];
      reflexivity.
Qed.









(** Outside that case: an item declared as an image that has no url makes
    the lookup raise, the handler of the block logs a warning, and the entry
    keeps no image, whatever its thumbnail, enclosures and markup hold. *)
Lemma resolve_image_url_missing_url source e m ms :
  Entry.media_content e = Some (m :: ms) ->
  is_image_media m = true ->
  media_url m = None ->
  resolve_image_url lib source e = None.
Proof.
  intros Hmc Himg Hurl.
  unfold resolve_image_url, image_from_fields. rewrite Hmc.
  unfold is_image_media in Himg. cbn [scan_media_content].
  destruct (media_type m) as [t|]; [|discriminate Himg].
  rewrite Himg, Hurl. reflexivity.
Qed.


End ImageFacts.

(** ** The session *)

Lemma pending_articles_add_article st a :
  pending_articles (session_add st (ArticleRow a))
  = (pending_articles st ++ [a])%list.
Proof.
  unfold pending_articles, session_add; simpl.
  rewrite flat_map_app. reflexivity.
Qed.

Lemma pending_articles_add_log st lg :
  pending_articles (session_add st (UpdateLogRow lg)) = pending_articles st.
Proof.
  unfold pending_articles, session_add; simpl.
  rewrite flat_map_app. simpl. apply app_nil_r.
Qed.

Lemma pending_logs_add_article st a :
  pending_logs (session_add st (ArticleRow a)) = pending_logs st.
Proof.
  unfold pending_logs, session_add; simpl.
  rewrite flat_map_app. simpl. apply app_nil_r.
Qed.

Lemma pending_logs_add_log st lg :
  pending_logs (session_add st (UpdateLogRow lg))
  = (pending_logs st ++ [lg])%list.
Proof.
  unfold pending_logs, session_add; simpl.
  rewrite flat_map_app. reflexivity.
Qed.

Lemma visible_links_add_article st a :
  visible_links (session_add st (ArticleRow a))
  = (visible_links st ++ [Article.link a])%list.
Proof.
  unfold visible_links, visible_articles, article_links.
  rewrite pending_articles_add_article. simpl.
  rewrite app_assoc, map_app. reflexivity.
Qed.

Lemma visible_links_add_log st lg :
  visible_links (session_add st (UpdateLogRow lg)) = visible_links st.
Proof.
  unfold visible_links, visible_articles.
  rewrite pending_articles_add_log. reflexivity.
Qed.

Lemma visible_links_fresh db :
  visible_links (fresh_session db) = article_links (articles db).
Proof.
  unfold visible_links, visible_articles, fresh_session, pending_articles; simpl.
  rewrite app_nil_r. reflexivity.
Qed.

Lemma find_link_none l link :
  find (fun a => Article.link a =? link) l = None <->
  ~ In link (article_links l).
Proof.
  induction l as [|a l IH]; simpl.
  - split; auto.
  - destruct (String.eqb_spec (Article.link a) link) as [E|E].
    + split; [discriminate | intros H; exfalso; apply H; left; exact E].
    + rewrite IH. split; [intros H [H1|H1]; auto | intros H H1; apply H; auto].
Qed.

Lemma query_first_by_link_none st link :
  query_first_by_link st link = None <-> ~ In link (visible_links st).
Proof. apply find_link_none. Qed.

Lemma new_article_link ad : Article.link (new_article ad) = ad_link ad.
Proof. reflexivity. Qed.

Lemma enriched_link w ad : ad_link (enriched w ad) = ad_link ad.
Proof.
  unfold enriched. destruct (extract_article_content w (ad_link ad)) as [c|];
    [destruct (str_truthy c)|]; reflexivity.
Qed.



(** ** The fetcher *)

Lemma exc_map_in {A B : Type} (f : A -> Exc B) l ys y :
  exc_map f l = Ok ys -> In y ys -> exists x, In x l /\ f x = Ok y.
Proof.
  revert ys; induction l as [|x l IH]; simpl; intros ys H Hy.
  - injection H as <-. destruct Hy.
  - destruct (f x) as [y0|] eqn:Ex; [|discriminate].
    simpl in H. destruct (exc_map f l) as [ys0|]; [|discriminate].
    simpl in H. injection H as <-.
    destruct Hy as [<-|Hy].
    + exists x; auto.
    + destruct (IH _ eq_refl Hy) as (x' & Hx' & Hf). exists x'; auto.
Qed.

Lemma exc_map_raise {A B : Type} (f : A -> Exc B) l x msg :
  In x l -> f x = Raise msg -> exists msg', exc_map f l = Raise msg'.
Proof.
  induction l as [|x0 l IH]; simpl; intros Hin Hf; [destruct Hin|].
  destruct Hin as [->|Hin].
  - rewrite Hf. simpl. eauto.
  - destruct (f x0); simpl; [|eauto].
    destruct (IH Hin Hf) as [msg' ->]. simpl. eauto.
Qed.

(** The links of the records, and whether there are records at all, depend
    on the entries alone. *)
Lemma exc_map_agree {A : Type} (f g : A -> Exc article_data) l :
  (forall x,
      match f x, g x with
      | Ok a, Ok b => ad_link a = ad_link b
      | Raise _, Raise _ => True
      | _, _ => False
      end) ->
  match exc_map f l, exc_map g l with
  | Ok l1, Ok l2 => map ad_link l1 = map ad_link l2
  | Raise _, Raise _ => True
  | _, _ => False
  end.
Proof.
  intros H. induction l as [|x l IH]; simpl; [reflexivity|].
  specialize (H x).
  destruct (f x), (g x); simpl; try contradiction; try exact I.
  destruct (exc_map f l), (exc_map g l); simpl;
    try contradiction; try exact I.
  rewrite H, IH. reflexivity.
Qed.

Lemma exc_map_links lib now now' source es :
  match exc_map (build_article_data lib now source) es,
        exc_map (build_article_data lib now' source) es with
  | Ok l, Ok l' => map ad_link l = map ad_link l'
  | Raise _, Raise _ => True
  | _, _ => False
  end.
Proof.
  apply exc_map_agree. intros e. unfold build_article_data.
  destruct (Entry.link e); [reflexivity | exact I].
Qed.

Lemma fetch_rss_feed_links lib w w' source :
  feedparser_parse w' source = feedparser_parse w source ->
  max_articles w' = max_articles w ->
  map ad_link (fetch_rss_feed lib w' source)
  = map ad_link (fetch_rss_feed lib w source).
Proof.
  intros Hf Hm. unfold fetch_rss_feed. rewrite Hf, Hm.
  destruct (feedparser_parse w source) as [entries|]; simpl; [|reflexivity].
  pose proof (exc_map_links lib (utcnow w') (utcnow w) source
                (py_slice_to entries (max_articles w))) as H.
  destruct (exc_map (build_article_data lib (utcnow w') source) _),
           (exc_map (build_article_data lib (utcnow w) source) _);
    try contradiction; auto.
Qed.


Lemma fetch_rss_feed_raise lib w source msg :
  feedparser_parse w source = Raise msg -> fetch_rss_feed lib w source = [].
Proof. intros H. unfold fetch_rss_feed. rewrite H. reflexivity. Qed.

Lemma fetch_rss_feed_missing_link lib w source entries e :
  feedparser_parse w source = Ok entries ->
  In e (py_slice_to entries (max_articles w)) ->
  Entry.link e = None ->
  fetch_rss_feed lib w source = [].
Proof.
  intros Hf Hin Hl. unfold fetch_rss_feed. rewrite Hf. simpl.
  assert (Hr : build_article_data lib (utcnow w) source e
               = Raise "AttributeError: object has no attribute 'link'").
  { unfold build_article_data. rewrite Hl. reflexivity. }
  destruct (exc_map_raise _ _ _ _ Hin Hr) as [msg' ->]. reflexivity.
Qed.

(** ** The cycle *)

Section CycleFacts.

Variable lib : Lib.
Variable w : World.

(** The four ways a turn of the inner loop ends. *)
Lemma stage_article_cases source ad st :
  (exists msg,
      query_error w source (ad_link ad) = Some (FlushFailed msg) /\
      stage_article w source ad st = (flush_failed st, Raise msg))
  \/ (exists msg,
      query_error w source (ad_link ad) = Some (SelectFailed msg) /\
      stage_article w source ad st = (st, Raise msg))
  \/ (query_error w source (ad_link ad) = None /\
      In (ad_link ad) (visible_links st) /\
      stage_article w source ad st = (st, Ok false))
  \/ (query_error w source (ad_link ad) = None /\
      ~ In (ad_link ad) (visible_links st) /\
      stage_article w source ad st
      = (session_add st (ArticleRow (new_article (enriched w ad))), Ok true)).
Proof.
  unfold stage_article.
  destruct (query_error w source (ad_link ad)) as [[msg|msg]|].
  - left. exists msg. auto.
  - right. left. exists msg. auto.
  - right. right.
    destruct (query_first_by_link st (ad_link ad)) as [a|] eqn:E.
    + left. repeat split.
      destruct (in_dec string_dec (ad_link ad) (visible_links st)) as [H|H];
        [exact H|].
      apply query_first_by_link_none in H. congruence.
    + right. repeat split.
      apply query_first_by_link_none. exact E.
Qed.

(** What holds of a live session before the inner loop holds after it,
    provided staging an unseen article and a failed flush keep it; and the
    loop leaves a session rolled back only by raising. *)
Lemma stage_articles_invariant (P : session -> Prop) source l :
  (forall ad st,
      In ad l -> P st -> rolled_back st = false ->
      ~ In (ad_link ad) (visible_links st) ->
      P (session_add st (ArticleRow (new_article (enriched w ad))))) ->
  (forall ad st msg,
      In ad l -> P st -> rolled_back st = false ->
      query_error w source (ad_link ad) = Some (FlushFailed msg) ->
      P (flush_failed st)) ->
  forall n st,
    P st -> rolled_back st = false ->
    P (fst (stage_articles w source l n st))
    /\ (rolled_back (fst (stage_articles w source l n st)) = true ->
        exists msg, snd (stage_articles w source l n st) = Raise msg).
Proof.
  induction l as [|ad l IH]; intros Hstep Habort n st HP Hlive; simpl.
  - split; [exact HP|]. intros H. congruence.
  - destruct (stage_article_cases source ad st)
      as [(msg & Hq & ->) | [(msg & _ & ->) | [(_ & _ & ->) | (_ & Hnew & ->)]]].
    + simpl. split; [|eauto].
      apply (Habort ad st msg); simpl; auto.
    + simpl. split; [exact HP | eauto].
    + apply IH; auto.
      * intros; apply Hstep; simpl; auto.
      * intros ad' st' msg' ?; apply (Habort ad' st' msg'); simpl; auto.
    + apply IH; auto.
      * intros; apply Hstep; simpl; auto.
      * intros ad' st' msg' ?; apply (Habort ad' st' msg'); simpl; auto.
      * apply Hstep; simpl; auto.
Qed.

Lemma update_source_invariant (P : session -> Prop) source :
  (forall ad st,
      In ad (fetch_rss_feed lib w source) -> P st -> rolled_back st = false ->
      ~ In (ad_link ad) (visible_links st) ->
      P (session_add st (ArticleRow (new_article (enriched w ad))))) ->
  (forall st lg,
      P st -> rolled_back st = false -> P (session_add st (UpdateLogRow lg))) ->
  (forall ad st msg,
      In ad (fetch_rss_feed lib w source) -> P st -> rolled_back st = false ->
      query_error w source (ad_link ad) = Some (FlushFailed msg) ->
      P (flush_failed st)) ->
  forall acc, P (fst acc) -> P (fst (update_source lib w acc source)).
Proof.
  intros Hstep Hlog Habort [st total] HP. unfold update_source.
  destruct (rolled_back st) eqn:Hlive; [exact HP|].
  destruct (stage_articles_invariant P source
              (fetch_rss_feed lib w source) Hstep Habort 0 st HP Hlive)
    as [H Hr].
  destruct (stage_articles w source (fetch_rss_feed lib w source) 0 st)
    as [st' [n|msg]]; simpl in *.
  - apply Hlog; [exact H|].
    destruct (rolled_back st'); [|reflexivity].
    destruct (Hr eq_refl) as [msg Hm]. discriminate Hm.
  - destruct (rolled_back st') eqn:E; simpl; [exact H|].
    apply Hlog; assumption.
Qed.

Lemma update_sources_invariant (P : session -> Prop) l :
  (forall source ad st,
      In source l -> In ad (fetch_rss_feed lib w source) -> P st ->
      rolled_back st = false ->
      ~ In (ad_link ad) (visible_links st) ->
      P (session_add st (ArticleRow (new_article (enriched w ad))))) ->
  (forall st lg,
      P st -> rolled_back st = false -> P (session_add st (UpdateLogRow lg))) ->
  (forall source ad st msg,
      In source l -> In ad (fetch_rss_feed lib w source) -> P st ->
      rolled_back st = false ->
      query_error w source (ad_link ad) = Some (FlushFailed msg) ->
      P (flush_failed st)) ->
  forall acc, P (fst acc) -> P (fst (update_sources lib w l acc)).
Proof.
  induction l as [|s l IH]; intros Hstep Hlog Habort acc HP; simpl;
    [exact HP|].
  apply IH; auto.
  - intros; eapply Hstep; simpl; eauto.
  - intros source ad st msg ? ?; apply (Habort source ad st msg); simpl; auto.
  - apply update_source_invariant; auto.
    + intros; eapply Hstep; simpl; eauto.
    + intros ad st msg ?; apply (Habort s ad st msg); simpl; auto.
Qed.

Lemma update_sources_cons s l acc :
  update_sources lib w (s :: l) acc
  = update_sources lib w l (update_source lib w acc s).
Proof. reflexivity. Qed.

Lemma update_sources_app l1 l2 acc :
  update_sources lib w (l1 ++ l2) acc
  = update_sources lib w l2 (update_sources lib w l1 acc).
Proof. unfold update_sources. apply fold_left_app. Qed.

(** No commit inside the loops: the tables stay as they were. *)
Lemma update_sources_stored l acc :
  stored (fst (update_sources lib w l acc)) = stored (fst acc).
Proof.
  apply (update_sources_invariant (fun st => stored st = stored (fst acc)));
    auto.
Qed.

(** A session that was rolled back holds no pending row. *)
Lemma update_sources_rolled_back l acc :
  (rolled_back (fst acc) = true -> pending (fst acc) = []) ->
  rolled_back (fst (update_sources lib w l acc)) = true ->
  pending (fst (update_sources lib w l acc)) = [].
Proof.
  apply (update_sources_invariant
           (fun st => rolled_back st = true -> pending st = [])).
  - intros source ad st _ _ _ Hlive _ H. simpl in H. congruence.
  - intros st lg _ Hlive H. simpl in H. congruence.
  - intros; reflexivity.
Qed.

(** Once the exception has left the loop, the turns that remain change
    nothing. *)
Lemma update_source_rolled_back acc source :
  rolled_back (fst acc) = true -> update_source lib w acc source = acc.
Proof.
  destruct acc as [st total]; simpl. intros H.
  unfold update_source. rewrite H. reflexivity.
Qed.

Lemma update_sources_after_raise l acc :
  rolled_back (fst acc) = true -> update_sources lib w l acc = acc.
Proof.
  revert acc; induction l as [|s l IH]; intros acc H; [reflexivity|].
  rewrite update_sources_cons, update_source_rolled_back by exact H.
  apply IH. exact H.
Qed.

(** A loop that ends with a live session went through live sessions. *)
Lemma update_sources_live l1 l2 acc :
  rolled_back (fst (update_sources lib w (l1 ++ l2) acc)) = false ->
  rolled_back (fst (update_sources lib w l1 acc)) = false.
Proof.
  rewrite update_sources_app. intros H.
  destruct (rolled_back (fst (update_sources lib w l1 acc))) eqn:E;
    [|reflexivity].
  rewrite update_sources_after_raise in H by exact E. congruence.
Qed.

(** The inner loop adds no log row (unless its flush fails). *)
Lemma stage_articles_pending_logs source l n st :
  rolled_back st = false ->
  rolled_back (fst (stage_articles w source l n st)) = false ->
  pending_logs (fst (stage_articles w source l n st)) = pending_logs st.
Proof.
  intros Hlive.
  apply (stage_articles_invariant
           (fun st' => rolled_back st' = false ->
                       pending_logs st' = pending_logs st)); auto.
  - intros ad st' _ H Hl _ _. rewrite pending_logs_add_article. auto.
  - intros ad st' msg _ _ _ _ H. discriminate H.
Qed.

(** One source, one log row, with the id of the source, when its turn ends
    with a live session. *)
Lemma update_source_logs acc source :
  rolled_back (fst (update_source lib w acc source)) = false ->
  exists lg,
    pending_logs (fst (update_source lib w acc source))
    = (pending_logs (fst acc) ++ [lg])%list
    /\ UpdateLog.source_id lg = Source.id source.
Proof.
  destruct acc as [st total]. unfold update_source.
  destruct (rolled_back st) eqn:Hlive; [simpl; congruence|].
  pose proof (stage_articles_pending_logs source
                (fetch_rss_feed lib w source) 0 st Hlive) as H.
  destruct (stage_articles w source (fetch_rss_feed lib w source) 0 st)
    as [st' [n|msg]]; simpl in *.
  - intros Hl. eexists. rewrite pending_logs_add_log, (H Hl).
    split; reflexivity.
  - destruct (rolled_back st') eqn:E; simpl; [congruence|].
    intros _. eexists. rewrite pending_logs_add_log, (H eq_refl).
    split; reflexivity.
Qed.

Lemma update_sources_logs l acc :
  rolled_back (fst (update_sources lib w l acc)) = false ->
  exists logs,
    pending_logs (fst (update_sources lib w l acc))
    = (pending_logs (fst acc) ++ logs)%list
    /\ map UpdateLog.source_id logs = map Source.id l.
Proof.
  revert acc; induction l as [|s l IH]; intros acc Hlive; simpl.
  - exists []. rewrite app_nil_r. auto.
  - rewrite update_sources_cons in Hlive.
    assert (Hs : rolled_back (fst (update_source lib w acc s)) = false).
    { destruct (rolled_back (fst (update_source lib w acc s))) eqn:E;
        [|reflexivity].
      rewrite update_sources_after_raise in Hlive by exact E. congruence. }
    destruct (update_source_logs acc s Hs) as (lg & H1 & H2).
    destruct (IH (update_source lib w acc s) Hlive) as (logs & H3 & H4).
    exists (lg :: logs). split.
    + rewrite H3, H1, <- app_assoc. reflexivity.
    + simpl. rewrite H2, H4. reflexivity.
Qed.

End CycleFacts.

(** ** Counting the log rows of a source *)





(** ** The audit trail and the commit *)

Section AuditTrail.

Variable lib : Lib.
Variable w : World.

Lemma run_cycle_stored db : stored (fst (run_cycle lib w db)) = db.
Proof. unfold run_cycle. rewrite update_sources_stored. reflexivity. Qed.

Lemma run_cycle_logs db :
  rolled_back (fst (run_cycle lib w db)) = false ->
  map UpdateLog.source_id (pending_logs (fst (run_cycle lib w db)))
  = map Source.id (active_sources db).
Proof.
  unfold run_cycle. intros Hlive.
  destruct (update_sources_logs lib w (active_sources db)
              (fresh_session db, 0) Hlive) as (logs & H1 & H2).
  rewrite H1. simpl. exact H2.
Qed.

(** A cycle that raised has nothing staged. *)
Lemma run_cycle_rolled_back db :
  rolled_back (fst (run_cycle lib w db)) = true ->
  pending (fst (run_cycle lib w db)) = [].
Proof.
  unfold run_cycle. apply update_sources_rolled_back.
  simpl. intros H. discriminate H.
Qed.

(** Without a failing flush no cycle raises. *)
Lemma run_cycle_live db :
  (forall s link msg, query_error w s link <> Some (FlushFailed msg)) ->
  rolled_back (fst (run_cycle lib w db)) = false.
Proof.
  intros Hq. unfold run_cycle.
  apply (update_sources_invariant lib w
           (fun st => rolled_back st = false)); auto.
  intros source ad st msg _ _ _ _ H. destruct (Hq _ _ _ H).
Qed.

(** [update_news] when the handler of a source raises: the tables are as
    they were. *)
Lemma update_news_raised db :
  update_news_raises lib w db = true -> update_news lib w db = db.
Proof.
  unfold update_news_raises, update_news. intros H. rewrite H.
  apply run_cycle_stored.
Qed.


(** C5. Nothing reaches the tables while the sources are processed; the
    one commit at the end of the cycle appends every staged article and
    every staged log row, and when it fails the rollback leaves the tables
    exactly as they were before the cycle. *)
Theorem cycle_commit_atomic (db : database) :
  stored (fst (run_cycle lib w db)) = db
  /\ (forall l acc,
        stored (fst (update_sources lib w l acc)) = stored (fst acc))
  /\ update_news lib w db
     = match commit_error w with
       | None =>
           {| categories := categories db;
              sources := sources db;
              articles :=
                (articles db
                 ++ pending_articles (fst (run_cycle lib w db)))%list;
              update_logs :=
                (update_logs db
                 ++ pending_logs (fst (run_cycle lib w db)))%list |}
       | Some _ => db
       end.
Proof.
  split; [apply run_cycle_stored|].
  split; [apply update_sources_stored|].
  unfold update_news.
  destruct (rolled_back (fst (run_cycle lib w db))) eqn:Hr.
  - rewrite run_cycle_stored.
    unfold pending_articles, pending_logs.
    rewrite (run_cycle_rolled_back db Hr). simpl.
    rewrite !app_nil_r.
    destruct (commit_error w); destruct db; reflexivity.
  - destruct (commit_error w); unfold rollback, commit;
      rewrite run_cycle_stored; reflexivity.
Qed.

(** A source whose fetch raises: [fetch_rss_feed] gives the empty list and
    the source takes the success branch. *)
Lemma update_source_fetch_raises source msg acc :
  feedparser_parse w source = Raise msg ->
  rolled_back (fst acc) = false ->
  update_source lib w acc source
  = (session_add (fst acc) (UpdateLogRow (success_log source 0 0)), snd acc).
Proof.
  intros H Hlive. destruct acc as [st total]. unfold update_source.
  simpl in Hlive. rewrite Hlive.
  rewrite (fetch_rss_feed_raise lib w source msg H). simpl.
  rewrite Nat.add_0_r. reflexivity.
Qed.

(** C2, as the code has it. A source whose feed fetch raises gives an
    empty list of records; the cycle adds exactly one log row for it, and
    that row has the status [success], not [error], with zero processed and
    zero new articles; the cycle goes on with the sources that follow. *)
Theorem fetch_failure_logged_as_success (source : Source.t) (msg : string) :
  feedparser_parse w source = Raise msg ->
  fetch_rss_feed lib w source = []
  /\ (forall acc,
        rolled_back (fst acc) = false ->
        update_source lib w acc source
        = (session_add (fst acc) (UpdateLogRow (success_log source 0 0)),
           snd acc))
  /\ (forall before after acc,
        rolled_back (fst (update_sources lib w before acc)) = false ->
        update_sources lib w (before ++ source :: after) acc
        = update_sources lib w after
            (session_add (fst (update_sources lib w before acc))
                         (UpdateLogRow (success_log source 0 0)),
             snd (update_sources lib w before acc)))
  /\ UpdateLog.source_id (success_log source 0 0) = Source.id source
  /\ UpdateLog.status (success_log source 0 0) = "success"
  /\ UpdateLog.status (success_log source 0 0) <> "error"
  /\ UpdateLog.articles_count (success_log source 0 0) = 0.
Proof.
  intros H.
  split; [apply (fetch_rss_feed_raise lib w source msg H)|].
  split; [intros acc; apply (update_source_fetch_raises source msg acc H)|].
  split; [|repeat split; intros E; discriminate E].
  intros before after acc Hlive.
  rewrite update_sources_app. simpl.
  rewrite (update_source_fetch_raises source msg _ H Hlive). reflexivity.
Qed.

End AuditTrail.

(** ** Enrichment *)



Section EnricherFacts.

Variable lib : Lib.
Variable w : World.



End EnricherFacts.

(** ** Deduplication on the link *)

Lemma nodup_filter_one (l : list Article.t) (x : string) :
  NoDup (article_links l) ->
  In x (article_links l) ->
  length (filter (fun a => Article.link a =? x) l) = 1.
Proof.
  induction l as [|a l IH]; simpl; intros Hnd Hin; [destruct Hin|].
  apply NoDup_cons_iff in Hnd. destruct Hnd as [Ha Hnd].
  destruct (String.eqb_spec (Article.link a) x) as [E|E].
  - simpl. f_equal. subst x.
    assert (H0 : forall l', ~ In (Article.link a) (article_links l') ->
                 length (filter (fun a0 => Article.link a0 =? Article.link a) l') = 0).
    { induction l' as [|b l' IH']; simpl; intros H; [reflexivity|].
      destruct (String.eqb_spec (Article.link b) (Article.link a)) as [E|E].
      - exfalso. apply H. left. exact E.
      - apply IH'. intros H'. apply H. right. exact H'. }
    apply H0. exact Ha.
  - destruct Hin as [Hin|Hin]; [contradiction|]. apply IH; assumption.
Qed.

Section DedupFacts.

Variable lib : Lib.
Variable w : World.

(** The links a session sees stay pairwise distinct. *)
Lemma update_sources_nodup l acc :
  NoDup (visible_links (fst acc)) ->
  NoDup (visible_links (fst (update_sources lib w l acc))).
Proof.
  apply (update_sources_invariant lib w (fun st => NoDup (visible_links st))).
  - intros source ad st _ _ Hnd _ Hnew.
    rewrite visible_links_add_article, new_article_link, enriched_link.
    apply NoDup_app; [exact Hnd | repeat constructor; intros [] |].
    intros x Hx [<-|[]]. contradiction.
  - intros st lg Hnd _. rewrite visible_links_add_log. exact Hnd.
  - intros source ad st msg _ _ Hnd _ _.
    unfold visible_links, visible_articles, article_links in *.
    simpl. rewrite app_nil_r. rewrite map_app in Hnd.
    apply NoDup_app_remove_r in Hnd. exact Hnd.
Qed.

(** Without a failing lookup the session stays live. *)
Lemma stage_articles_live source l n st :
  (forall link, query_error w source link = None) ->
  rolled_back st = false ->
  rolled_back (fst (stage_articles w source l n st)) = false.
Proof.
  intros Hq Hlive.
  apply (stage_articles_invariant w (fun st' => rolled_back st' = false));
    auto.
  intros ad st' msg _ _ _ H. rewrite Hq in H. discriminate H.
Qed.

Lemma update_sources_no_failure_live l acc :
  (forall s link, query_error w s link = None) ->
  rolled_back (fst acc) = false ->
  rolled_back (fst (update_sources lib w l acc)) = false.
Proof.
  intros Hq.
  apply (update_sources_invariant lib w (fun st => rolled_back st = false));
    auto.
  intros source ad st msg _ _ _ _ H. rewrite Hq in H. discriminate H.
Qed.

(** Without a failing lookup a link a session sees stays visible. *)
Lemma stage_articles_visible source l n st x :
  (forall link, query_error w source link = None) ->
  rolled_back st = false ->
  In x (visible_links st) ->
  In x (visible_links (fst (stage_articles w source l n st))).
Proof.
  intros Hq Hlive Hx.
  apply (stage_articles_invariant w (fun st' => In x (visible_links st')));
    auto.
  - intros ad st' _ H _ _. rewrite visible_links_add_article, in_app_iff. auto.
  - intros ad st' msg _ _ _ H. rewrite Hq in H. discriminate H.
Qed.

Lemma update_sources_visible l acc x :
  (forall s link, query_error w s link = None) ->
  In x (visible_links (fst acc)) ->
  In x (visible_links (fst (update_sources lib w l acc))).
Proof.
  intros Hq.
  apply (update_sources_invariant lib w (fun st' => In x (visible_links st'))).
  - intros source ad st' _ _ H _ _.
    rewrite visible_links_add_article, in_app_iff. auto.
  - intros st' lg H _. rewrite visible_links_add_log. exact H.
  - intros source ad st msg _ _ _ _ H. rewrite Hq in H. discriminate H.
Qed.

(** The rows staged by a cycle have links the tables did not hold. *)
Lemma run_cycle_new_links db a :
  In a (pending_articles (fst (run_cycle lib w db))) ->
  ~ In (Article.link a) (article_links (articles db)).
Proof.
  revert a. unfold run_cycle.
  assert (H : stored (fst (update_sources lib w (active_sources db)
                             (fresh_session db, 0))) = db
              /\ forall a,
                In a (pending_articles
                        (fst (update_sources lib w (active_sources db)
                                (fresh_session db, 0)))) ->
                ~ In (Article.link a) (article_links (articles db))).
  { apply (update_sources_invariant lib w
             (fun st => stored st = db /\
                        forall a, In a (pending_articles st) ->
                                  ~ In (Article.link a)
                                       (article_links (articles db)))).
    - intros source ad st _ _ [Hst IH] _ Hnew. split; [exact Hst|].
      intros a. rewrite pending_articles_add_article, in_app_iff.
      intros [H|[<-|[]]]; [apply IH; exact H|].
      rewrite new_article_link, enriched_link.
      intros Hin. apply Hnew.
      unfold visible_links, visible_articles, article_links.
      rewrite map_app, in_app_iff, Hst. left. exact Hin.
    - intros st lg [Hst IH] _. split; [exact Hst|].
      intros a. rewrite pending_articles_add_log. apply IH.
    - intros source ad st msg _ _ [Hst _] _ _.
      split; [exact Hst | intros a []].
    - simpl. split; [reflexivity | intros a []]. }
  exact (proj2 H).
Qed.

(** Without a failing lookup the inner loop ends normally and every link
    it was given is visible afterwards. *)
Lemma stage_articles_complete source l :
  (forall link, query_error w source link = None) ->
  forall n st ad,
    rolled_back st = false ->
    In ad l ->
    In (ad_link ad) (visible_links (fst (stage_articles w source l n st))).
Proof.
  intros Hq. induction l as [|ad0 l IH]; intros n st ad Hlive Hin;
    [destruct Hin|].
  simpl.
  destruct (stage_article_cases w source ad0 st)
    as [(msg & Hm & _) | [(msg & Hm & _)
                         | [(_ & Hseen & ->) | (_ & _ & ->)]]].
  - rewrite Hq in Hm. discriminate Hm.
  - rewrite Hq in Hm. discriminate Hm.
  - destruct Hin as [<-|Hin]; [|apply IH; assumption].
    apply stage_articles_visible; assumption.
  - destruct Hin as [<-|Hin]; [|apply IH; assumption].
    apply stage_articles_visible; auto.
    rewrite visible_links_add_article, in_app_iff. right. left.
    rewrite new_article_link. apply enriched_link.
Qed.

Lemma update_source_complete source acc ad :
  (forall link, query_error w source link = None) ->
  rolled_back (fst acc) = false ->
  In ad (fetch_rss_feed lib w source) ->
  In (ad_link ad) (visible_links (fst (update_source lib w acc source))).
Proof.
  intros Hq Hlive Hin. destruct acc as [st total]. unfold update_source.
  simpl in Hlive. rewrite Hlive.
  pose proof (stage_articles_complete source (fetch_rss_feed lib w source)
                Hq 0 st ad Hlive Hin) as H.
  destruct (stage_articles w source (fetch_rss_feed lib w source) 0 st)
    as [st' [n|msg]]; simpl in *.
  - rewrite visible_links_add_log; exact H.
  - destruct (rolled_back st'); simpl; [exact H|].
    rewrite visible_links_add_log; exact H.
Qed.

Lemma update_sources_complete l :
  (forall s link, query_error w s link = None) ->
  forall acc s ad,
    rolled_back (fst acc) = false ->
    In s l ->
    In ad (fetch_rss_feed lib w s) ->
    In (ad_link ad) (visible_links (fst (update_sources lib w l acc))).
Proof.
  intros Hq. induction l as [|s0 l IH]; intros acc s ad Hlive Hs Had;
    [destruct Hs|].
  simpl. destruct Hs as [->|Hs].
  - apply update_sources_visible; [exact Hq|].
    apply update_source_complete; [apply Hq | exact Hlive | exact Had].
  - eapply IH; eauto.
    apply (update_sources_no_failure_live [s0] acc Hq Hlive).
Qed.

(** When every link of the list is visible already, the inner loop counts
    nothing and leaves the session as it is, unless a flush fails. *)
Lemma stage_articles_known source l n st :
  (forall ad, In ad l -> In (ad_link ad) (visible_links st)) ->
  (fst (stage_articles w source l n st) = st
   /\ (snd (stage_articles w source l n st) = Ok n
       \/ exists msg, snd (stage_articles w source l n st) = Raise msg))
  \/ (fst (stage_articles w source l n st) = flush_failed st
      /\ exists msg, snd (stage_articles w source l n st) = Raise msg).
Proof.
  induction l as [|ad l IH]; intros Hknown; simpl; [auto|].
  destruct (stage_article_cases w source ad st)
    as [(msg & _ & ->) | [(msg & _ & ->)
                         | [(_ & _ & ->) | (_ & Hnew & _)]]].
  - simpl. right. eauto.
  - simpl. left. eauto.
  - apply IH. intros ad' H'. apply Hknown. right. exact H'.
  - exfalso. apply Hnew. apply Hknown. left. reflexivity.
Qed.

Lemma update_source_known source st total :
  rolled_back st = false ->
  (forall ad, In ad (fetch_rss_feed lib w source) ->
              In (ad_link ad) (visible_links st)) ->
  (exists lg,
      update_source lib w (st, total) source
      = (session_add st (UpdateLogRow lg), total)
      /\ UpdateLog.articles_count lg = 0)
  \/ update_source lib w (st, total) source = (flush_failed st, 0).
Proof.
  intros Hlive Hknown. unfold update_source. rewrite Hlive.
  destruct (stage_articles_known source (fetch_rss_feed lib w source) 0 st
              Hknown) as [[Hst Hres] | [Hst [msg Hres]]];
    destruct (stage_articles w source (fetch_rss_feed lib w source) 0 st)
      as [st' r]; simpl in *; subst st'.
  - left. destruct Hres as [-> | [msg ->]].
    + eexists. rewrite Nat.add_0_r. split; reflexivity.
    + rewrite Hlive. eexists. split; reflexivity.
  - right. subst r. reflexivity.
Qed.

Lemma update_sources_known l :
  forall acc,
    (forall s ad, In s l -> In ad (fetch_rss_feed lib w s) ->
                  In (ad_link ad) (visible_links (fst acc))) ->
    pending_articles (fst acc) = [] ->
    snd acc = 0 ->
    pending_articles (fst (update_sources lib w l acc)) = []
    /\ snd (update_sources lib w l acc) = 0
    /\ (forall lg,
          In lg (pending_logs (fst (update_sources lib w l acc))) ->
          In lg (pending_logs (fst acc)) \/ UpdateLog.articles_count lg = 0).
Proof.
  induction l as [|s l IH]; intros [st total] Hknown Hp Ht; [simpl; auto|].
  destruct (rolled_back st) eqn:Hlive.
  { rewrite update_sources_after_raise by exact Hlive. auto. }
  rewrite update_sources_cons.
  destruct (update_source_known s st total Hlive) as [(lg & Hu & Hc) | Hu].
  { intros ad Had. apply (Hknown s ad); [left; reflexivity | exact Had]. }
  - rewrite Hu.
    destruct (IH (session_add st (UpdateLogRow lg), total)) as (H1 & H2 & H3).
    { intros s' ad Hs' Had. simpl. rewrite visible_links_add_log.
      apply (Hknown s' ad); [right; exact Hs' | exact Had]. }
    { simpl. rewrite pending_articles_add_log. exact Hp. }
    { exact Ht. }
    split; [exact H1|]. split; [exact H2|].
    intros lg' Hlg'. destruct (H3 lg' Hlg') as [H|H]; [|right; exact H].
    simpl in H. rewrite pending_logs_add_log, in_app_iff in H.
    destruct H as [H|[<-|[]]]; [left; exact H | right; exact Hc].
  - rewrite Hu, update_sources_after_raise by reflexivity.
    simpl. split; [reflexivity|]. split; [reflexivity|]. intros lg [].
Qed.

End DedupFacts.

(** C3. Ingestion is idempotent on the link. After a cycle whose lookups
    and commit went through, followed by a second cycle over the same feeds:
    the links of the table are pairwise distinct; the first cycle kept every
    row it found and added only rows with links the table did not hold; the
    second cycle stages no article, counts zero new articles in total and in
    every log row, and leaves the table of articles as it was; and every
    link the feeds submitted has exactly one row. *)
Theorem ingestion_idempotent (lib : Lib) (w1 w2 : World) (db : database) :
  NoDup (article_links (articles db)) ->
  (forall s link, query_error w1 s link = None) ->
  commit_error w1 = None ->
  (forall s, feedparser_parse w2 s = feedparser_parse w1 s) ->
  max_articles w2 = max_articles w1 ->
  NoDup (article_links
           (articles (update_news lib w2 (update_news lib w1 db))))
  /\ (exists new,
         articles (update_news lib w1 db) = (articles db ++ new)%list /\
         forall a, In a new ->
                   ~ In (Article.link a) (article_links (articles db)))
  /\ articles (update_news lib w2 (update_news lib w1 db))
     = articles (update_news lib w1 db)
  /\ pending_articles (fst (run_cycle lib w2 (update_news lib w1 db))) = []
  /\ snd (run_cycle lib w2 (update_news lib w1 db)) = 0
  /\ (forall lg,
        In lg (pending_logs (fst (run_cycle lib w2 (update_news lib w1 db)))) ->
        UpdateLog.articles_count lg = 0)
  /\ (forall s ad,
        In s (active_sources db) ->
        In ad (fetch_rss_feed lib w1 s) ->
        length (filter (fun a => Article.link a =? ad_link ad)
                       (articles (update_news lib w2 (update_news lib w1 db))))
        = 1).
Proof.
  intros Hnd Hq Hc Hfeed Hmax.
  pose (st1 := fst (run_cycle lib w1 db)).
  assert (Hst1 : stored st1 = db) by apply run_cycle_stored.
  assert (Hlive1 : rolled_back st1 = false).
  { apply run_cycle_live. intros s link msg. rewrite Hq. discriminate. }
  assert (Hdb1 : update_news lib w1 db = commit st1).
  { unfold update_news. fold st1. rewrite Hlive1, Hc. reflexivity. }
  assert (Hart1 : articles (update_news lib w1 db)
                  = (articles db ++ pending_articles st1)%list).
  { rewrite Hdb1. unfold commit; simpl. rewrite Hst1. reflexivity. }
  assert (Hlinks1 : article_links (articles (update_news lib w1 db))
                    = visible_links st1).
  { rewrite Hart1. unfold visible_links, visible_articles.
    rewrite Hst1. reflexivity. }
  assert (Hnd1 : NoDup (article_links (articles (update_news lib w1 db)))).
  { rewrite Hlinks1. unfold st1, run_cycle. apply update_sources_nodup.
    simpl. rewrite visible_links_fresh. exact Hnd. }
  assert (Hsrc : active_sources (update_news lib w1 db) = active_sources db).
  { rewrite Hdb1. unfold active_sources, commit; simpl.
    rewrite Hst1. reflexivity. }
  assert (Hseen : forall s ad,
             In s (active_sources db) ->
             In ad (fetch_rss_feed lib w1 s) ->
             In (ad_link ad) (article_links (articles (update_news lib w1 db)))).
  { intros s ad Hs Had. rewrite Hlinks1. unfold st1, run_cycle.
    apply (update_sources_complete lib w1 (active_sources db) Hq
             (fresh_session db, 0) s ad eq_refl Hs Had). }
  assert (Hknown : forall s ad,
             In s (active_sources (update_news lib w1 db)) ->
             In ad (fetch_rss_feed lib w2 s) ->
             In (ad_link ad)
                (visible_links (fst (fresh_session (update_news lib w1 db), 0)))).
  { intros s ad Hs Had. simpl. rewrite visible_links_fresh.
    rewrite Hsrc in Hs.
    assert (Hl : In (ad_link ad) (map ad_link (fetch_rss_feed lib w1 s))).
    { rewrite <- (fetch_rss_feed_links lib w1 w2 s (Hfeed s) Hmax).
      apply in_map. exact Had. }
    apply in_map_iff in Hl. destruct Hl as (ad1 & E & Had1).
    rewrite <- E. apply (Hseen s ad1 Hs Had1). }
  destruct (update_sources_known lib w2
              (active_sources (update_news lib w1 db)) _ Hknown
              eq_refl eq_refl)
    as (Hp2 & Ht2 & Hl2).
  fold (run_cycle lib w2 (update_news lib w1 db)) in Hp2, Ht2, Hl2.
  simpl in Hp2, Ht2, Hl2.
  assert (Hart2 : articles (update_news lib w2 (update_news lib w1 db))
                  = articles (update_news lib w1 db)).
  { unfold update_news at 1.
    destruct (rolled_back (fst (run_cycle lib w2 (update_news lib w1 db))));
      [rewrite run_cycle_stored; reflexivity|].
    destruct (commit_error w2); unfold rollback, commit; simpl;
      rewrite run_cycle_stored; [reflexivity|].
    rewrite Hp2. apply app_nil_r. }
  split; [rewrite Hart2; exact Hnd1|].
  split.
  { exists (pending_articles st1). split; [exact Hart1|].
    intros a Ha. apply (run_cycle_new_links lib w1 db a Ha). }
  split; [exact Hart2|].
  split; [exact Hp2|].
  split; [exact Ht2|].
  split.
  { intros lg Hlg. destruct (Hl2 lg Hlg) as [[]|H]. exact H. }
  intros s ad Hs Had. rewrite Hart2.
  apply nodup_filter_one; [exact Hnd1 | apply (Hseen s ad Hs Had)].
Qed.

(** ** The read side *)

Lemma In_firstn {A : Type} (x : A) n l : In x (firstn n l) -> In x l.
Proof.
  revert l; induction n as [|n IH]; intros [|y l]; simpl; try tauto.
  intros [H|H]; auto.
Qed.

Lemma In_skipn {A : Type} (x : A) n l : In x (skipn n l) -> In x l.
Proof.
  revert l; induction n as [|n IH]; intros [|y l]; simpl; try tauto.
  intros H. right. apply IH. exact H.
Qed.

Lemma insert_desc_In x a l : In x (insert_desc a l) <-> x = a \/ In x l.
Proof.
  induction l as [|b l IH]; simpl.
  - intuition auto.
  - destruct (timestamp (Article.published_at b)
              <? timestamp (Article.published_at a))%Z; simpl.
    + intuition auto.
    + rewrite IH. intuition auto.
Qed.

Lemma order_by_published_desc_In x l :
  In x (order_by_published_desc l) <-> In x l.
Proof.
  induction l as [|a l IH]; simpl; [tauto|].
  rewrite insert_desc_In, IH. intuition auto.
Qed.

Lemma paginate_In a q page per_page :
  In a (items (paginate q page per_page)) -> In a q.
Proof.
  unfold paginate; simpl. intros H.
  apply In_firstn in H. apply In_skipn in H. exact H.
Qed.

Lemma filter_source_In a source q : In a (filter_source source q) -> In a q.
Proof.
  unfold filter_source. destruct source as [sid|]; auto.
  destruct (sid =? 0)%Z; auto.
  intros H. apply filter_In in H. tauto.
Qed.

Lemma filter_filter {A : Type} (f g : A -> bool) l :
  filter f (filter g l) = filter (fun x => g x && f x) l.
Proof.
  induction l as [|x l IH]; simpl; [reflexivity|].
  destruct (g x); simpl; [destruct (f x)|]; rewrite IH; reflexivity.
Qed.

Lemma published_since_spec now a :
  published_since (seven_days_ago now) a = true <-> not_older_than_7_days now a.
Proof.
  unfold published_since, seven_days_ago, not_older_than_7_days.
  apply Z.leb_le.
Qed.

Lemma listed_spec now a :
  listed now a = true <->
  Article.is_active a = true /\ not_older_than_7_days now a.
Proof.
  unfold listed. rewrite andb_true_iff, published_since_spec. tauto.
Qed.

(** A row of a page of a query that went through the two filters. *)
Lemma page_row_listed db now (keep : Article.t -> bool) source page per_page a :
  In a (items (paginate
                 (order_by_published_desc
                    (filter_source source
                       (filter (published_since (seven_days_ago now))
                               (filter (fun x => keep x && Article.is_active x)
                                       (articles db)))))
                 page per_page)) ->
  In a (articles db) /\ keep a = true /\ listed now a = true.
Proof.
  intros H. apply paginate_In in H. rewrite order_by_published_desc_In in H.
  apply filter_source_In in H. apply filter_In in H. destruct H as [H Hp].
  apply filter_In in H. destruct H as [H Hk].
  apply andb_true_iff in Hk. destruct Hk as [Hk Ha].
  unfold listed. rewrite Ha, Hp. auto.
Qed.

(** C10, as the code has it. Every row of the home page, of a category
    page, of [/api/news] and of [/api/news/<category>] is an active article
    dated no earlier than seven days before the time of the query, whatever
    the page, the page size and the source filter of the request; the
    statistics count exactly the articles that pass the same test. The test
    has no upper end. *)
Theorem listings_not_older_than_7_days (db : database) (now : datetime) :
  (forall page source a,
      In a (items (index db now page source)) ->
      In a (articles db) /\ Article.is_active a = true /\
      not_older_than_7_days now a)
  /\ (forall name page source p a,
        category_news db now name page source = Some p ->
        In a (items p) ->
        In a (articles db) /\ Article.is_active a = true /\
        not_older_than_7_days now a)
  /\ (forall page per_page a,
        In a (items (api_news db now page per_page)) ->
        In a (articles db) /\ Article.is_active a = true /\
        not_older_than_7_days now a)
  /\ (forall name page per_page p a,
        api_category_news db now name page per_page = Some p ->
        In a (items p) ->
        In a (articles db) /\ Article.is_active a = true /\
        not_older_than_7_days now a)
  /\ total_articles (api_stats db now)
     = length (filter (listed now) (articles db))
  /\ stats_categories (api_stats db now)
     = map (fun c =>
              (Category.name c, Category.display_name c,
               length (filter (fun a =>
                                 (Article.category_id a =? Category.id c)%Z
                                 && listed now a)
                              (articles db))))
           (categories db)
  /\ (forall a,
        listed now a = true <->
        Article.is_active a = true /\ not_older_than_7_days now a).
Proof.
  assert (Hrow : forall keep source page per_page a,
             In a (items (paginate
                            (order_by_published_desc
                               (filter_source source
                                  (filter (published_since (seven_days_ago now))
                                          (filter (fun x => keep x && Article.is_active x)
                                                  (articles db)))))
                            page per_page)) ->
             In a (articles db) /\ Article.is_active a = true /\
             not_older_than_7_days now a).
  { intros keep source page per_page a H.
    apply page_row_listed in H. destruct H as (H1 & _ & H2).
    apply listed_spec in H2. tauto. }
  split.
  { intros page source a H.
    apply (Hrow (fun _ => true) source (arg_default page 1) 20%Z a). exact H. }
  split.
  { intros name page source p a Hp Ha. unfold category_news in Hp.
    destruct (category_by_name db name) as [c|]; [|discriminate Hp].
    injection Hp as <-.
    apply (Hrow (fun x => (Article.category_id x =? Category.id c)%Z)
                source (arg_default page 1) 20%Z a). exact Ha. }
  split.
  { intros page per_page a H.
    apply (Hrow (fun _ => true) None (arg_default page 1)
                (Z.min (arg_default per_page 20) 100) a). exact H. }
  split.
  { intros name page per_page p a Hp Ha. unfold api_category_news in Hp.
    destruct (category_by_name db name) as [c|]; [|discriminate Hp].
    injection Hp as <-.
    apply (Hrow (fun x => (Article.category_id x =? Category.id c)%Z)
                None (arg_default page 1)
                (Z.min (arg_default per_page 20) 100) a). exact Ha. }
  split.
  { unfold api_stats; simpl. rewrite filter_filter. reflexivity. }
  split.
  { unfold api_stats; simpl. apply map_ext. intros c.
    unfold category_recent. rewrite filter_filter. f_equal. f_equal.
    apply filter_ext. intros a. unfold listed.
    rewrite andb_assoc. reflexivity. }
  apply listed_spec.
Qed.

(** ** The pipeline on the sample feeds *)

Lemma sample_source_ids_nodup : NoDup (map Source.id (sources sample_db)).
Proof.
  simpl. repeat constructor; simpl; intuition discriminate.
Qed.

(** C4. The code on a feed whose second entry has no link: reading
    [entry.link] raises inside [fetch_rss_feed], whose handler returns the
    empty list, so the entries with a link of the same feed are lost with
    it; the source is logged as a success with zero processed articles, and
    only the article of the other source reaches the table. *)
Theorem missing_link_drops_whole_feed :
  feedparser_parse world_missing_link src_news
  = Ok [entry_a; entry_no_link; entry_b]
  /\ Entry.link entry_a = Some "https://news.example.com/a"
  /\ Entry.link entry_no_link = None
  /\ Entry.link entry_b = Some "https://news.example.com/b"
  /\ fetch_rss_feed sample_lib world_missing_link src_news = []
  /\ article_links
       (articles (update_news sample_lib world_missing_link sample_db))
     = ["https://tech.example.org/t"]
  /\ map (fun lg => (UpdateLog.source_id lg, UpdateLog.status lg,
                     UpdateLog.message lg, UpdateLog.articles_count lg))
         (update_logs (update_news sample_lib world_missing_link sample_db))
     = [(1%Z, "success", "Успешно обработано 0 статей, 0 новых", 0);
        (2%Z, "success", "Успешно обработано 1 статей, 1 новых", 1)].
Proof. repeat split. Qed.

(** The fetch of the first sample source raises, and its one log row has
    the status [success], not [error]. *)
Lemma fetch_failure_is_not_logged_as_error :
  feedparser_parse world_fetch_fails src_news = Raise "timed out"
  /\ In src_news (active_sources sample_db)
  /\ map (fun lg => (UpdateLog.source_id lg, UpdateLog.status lg,
                     UpdateLog.articles_count lg))
         (pending_logs (fst (run_cycle sample_lib world_fetch_fails sample_db)))
     = [(1%Z, "success", 0); (2%Z, "success", 1)]
  /\ ~ (exists lg,
           In lg (pending_logs
                    (fst (run_cycle sample_lib world_fetch_fails sample_db)))
           /\ UpdateLog.source_id lg = Source.id src_news
           /\ UpdateLog.status lg = "error").
Proof.
  split; [reflexivity|]. split; [left; reflexivity|].
  split; [reflexivity|].
  intros (lg & Hin & Hid & Hst).
  vm_compute in Hin.
  destruct Hin as [<-|[<-|[]]]; vm_compute in Hid, Hst; discriminate.
Qed.

(** The date string of the sample entry says 12:00 at +03:00, which is 09:00
    UTC; the record keeps 12:00, three hours after the instant the feed
    gave. *)
Lemma string_date_is_not_utc :
  has_parsed_date entry_rooted = false
  /\ Entry.published entry_rooted = Some "Mon, 08 Jan 2024 12:00:00 +0300"
  /\ date_parser_parse sample_lib "Mon, 08 Jan 2024 12:00:00 +0300"
     = Ok (mk_datetime 2024 1 8 12 0 0 0 (Some 180%Z))
  /\ resolve_published_at sample_lib sample_now entry_rooted
     = mk_datetime 2024 1 8 12 0 0 0 None
  /\ utc_timestamp (mk_datetime 2024 1 8 12 0 0 0 (Some 180%Z))
     = timestamp (mk_datetime 2024 1 8 9 0 0 0 None)
  /\ (timestamp (resolve_published_at sample_lib sample_now entry_rooted)
      - utc_timestamp (mk_datetime 2024 1 8 12 0 0 0 (Some 180%Z))
      = 3 * 3600 * 1000000)%Z.
Proof. repeat split; reflexivity. Qed.

(** Characters, not bytes, are counted: the placeholder title has 13
    letters in 25 bytes, and a title of 501 Cyrillic letters is cut to its
    first 500. *)
Lemma cyrillic_title_cut_by_characters :
  str_len "Без заголовка" = 13
  /\ String.length "Без заголовка" = 25
  /\ str_len (cyrillic_title 501) = 501
  /\ resolve_title (plain_entry (cyrillic_title 501) None)
     = cyrillic_title 500
  /\ str_len (resolve_title (plain_entry (cyrillic_title 501) None)) = 500.
Proof. repeat split; vm_compute; reflexivity. Qed.

(** C10, as stated, fails: the home page lists an article dated one day
    after the time of the query, which is not within the seven days that end
    at that time. *)
Lemma listing_returns_future_article :
  In article_tomorrow (items (index dated_db sample_now None None))
  /\ ~ within_last_7_days sample_now article_tomorrow.
Proof.
  split.
  - vm_compute. left. reflexivity.
  - unfold within_last_7_days. intros [_ H]. vm_compute in H.
    apply H. reflexivity.
Qed.



(** The failed fetch of the sample feed adds the success row and nothing
    else. *)
Lemma fetch_failure_logged_as_success_sample :
  feedparser_parse world_fetch_fails src_news = Raise "timed out"
  /\ update_source sample_lib world_fetch_fails (fresh_session sample_db, 0)
                   src_news
     = (session_add (fresh_session sample_db)
                    (UpdateLogRow (success_log src_news 0 0)), 0).
Proof.
  split; [reflexivity|].
  destruct (fetch_failure_logged_as_success sample_lib world_fetch_fails
              src_news "timed out" eq_refl) as (_ & H & _).
  exact (H (fresh_session sample_db, 0) eq_refl).
Defined.

(** Two cycles over the sample feeds: the second one adds nothing, and the
    link the first feed repeats has one row. *)
Lemma ingestion_idempotent_sample :
  NoDup (article_links (articles sample_db))
  /\ (forall s link, query_error world_ok s link = None)
  /\ commit_error world_ok = None
  /\ article_links
       (articles (update_news sample_lib world_ok
                    (update_news sample_lib world_ok sample_db)))
     = ["https://news.example.com/a"; "https://news.example.com/b";
        "https://tech.example.org/t"]
  /\ snd (run_cycle sample_lib world_ok
            (update_news sample_lib world_ok sample_db)) = 0
  /\ length (filter (fun a => Article.link a =? "https://news.example.com/a")
                    (articles (update_news sample_lib world_ok
                                 (update_news sample_lib world_ok sample_db))))
     = 1.
Proof.
  assert (Hnd : NoDup (article_links (articles sample_db))) by constructor.
  split; [exact Hnd|].
  split; [reflexivity|].
  split; [reflexivity|].
  destruct (ingestion_idempotent sample_lib world_ok world_ok sample_db Hnd
              (fun _ _ => eq_refl) eq_refl (fun _ => eq_refl) eq_refl)
    as (_ & _ & H3 & _ & H5 & _ & H7).
  split; [rewrite H3; reflexivity|].
  split; [exact H5|].
  assert (Hin : In src_news (active_sources sample_db)) by (left; reflexivity).
  assert (Had : exists ad,
             In ad (fetch_rss_feed sample_lib world_ok src_news) /\
             ad_link ad = "https://news.example.com/a").
  { eexists. split; [left; reflexivity | reflexivity]. }
  destruct Had as (ad & Had & <-).
  exact (H7 src_news ad Hin Had).
Defined.




(** ** More on the fetcher *)

Lemma exc_map_length {A B : Type} (f : A -> Exc B) l ys :
  exc_map f l = Ok ys -> length ys = length l.
Proof.
  revert ys; induction l as [|x l IH]; simpl; intros ys H.
  - injection H as <-. reflexivity.
  - destruct (f x) as [y|]; [|discriminate]. simpl in H.
    destruct (exc_map f l) as [ys0|]; [|discriminate]. simpl in H.
    injection H as <-. simpl. f_equal. apply IH. reflexivity.
Qed.

Lemma py_slice_to_length {A : Type} (l : list A) (n : Z) :
  (0 <= n)%Z -> length (py_slice_to l n) <= Z.to_nat n.
Proof.
  intros H. unfold py_slice_to.
  destruct (Z.leb_spec 0 n); [|lia].
  rewrite length_firstn. lia.
Qed.

(** X1. The fetcher never returns more records than [MAX_ARTICLES_PER_SOURCE]
    allows, whatever the feed holds. *)
Theorem fetch_rss_feed_at_most_max (lib : Lib) (w : World) (source : Source.t) :
  (0 <= max_articles w)%Z ->
  length (fetch_rss_feed lib w source) <= Z.to_nat (max_articles w).
Proof.
  intros Hmax. unfold fetch_rss_feed.
  destruct (feedparser_parse w source) as [entries|]; simpl; [|lia].
  destruct (exc_map _ _) as [l|] eqn:E; simpl; [|lia].
  rewrite (exc_map_length _ _ _ E). apply py_slice_to_length. exact Hmax.
Qed.

Lemma fetch_rss_feed_at_most_max_sample :
  (0 <= max_articles world_ok)%Z
  /\ length (fetch_rss_feed sample_lib world_ok src_news) <= 50.
Proof.
  split; [vm_compute; discriminate|].
  apply (fetch_rss_feed_at_most_max sample_lib world_ok src_news).
  vm_compute; discriminate.
Defined.

Lemma exc_map_all_ok {A B : Type} (f : A -> Exc B) (g : A -> B) l :
  (forall x, In x l -> f x = Ok (g x)) -> exc_map f l = Ok (map g l).
Proof.
  induction l as [|x l IH]; simpl; intros H; [reflexivity|].
  rewrite (H x) by auto. simpl. rewrite IH by auto. reflexivity.
Qed.

(** X2. When every entry the fetcher looks at has a link, the records are the
    entries in feed order, one for one, each with the link of its entry and
    the ids of the source. *)
Theorem fetch_rss_feed_records_in_feed_order
        (lib : Lib) (w : World) (source : Source.t) (entries : list Entry.t) :
  feedparser_parse w source = Ok entries ->
  (forall e, In e (py_slice_to entries (max_articles w)) ->
             Entry.link e <> None) ->
  map (fun ad => Some (ad_link ad)) (fetch_rss_feed lib w source)
  = map Entry.link (py_slice_to entries (max_articles w))
  /\ map ad_title (fetch_rss_feed lib w source)
     = map resolve_title (py_slice_to entries (max_articles w))
  /\ (forall ad, In ad (fetch_rss_feed lib w source) ->
                 ad_source_id ad = Source.id source /\
                 ad_category_id ad = Source.category_id source).
Proof.
  intros Hf Hlinks. unfold fetch_rss_feed. rewrite Hf. simpl.
  set (es := py_slice_to entries (max_articles w)) in *.
  pose (g := fun e =>
          {| ad_title := resolve_title e;
             ad_description := resolve_description lib e;
             ad_link := match Entry.link e with Some l => l | None => "" end;
             ad_published_at := resolve_published_at lib (utcnow w) e;
             ad_guid := resolve_guid e;
             ad_source_id := Source.id source;
             ad_category_id := Source.category_id source;
             ad_image_url := resolve_image_url lib source e;
             ad_content := None |}).
  assert (Hall : exc_map (build_article_data lib (utcnow w) source) es
                 = Ok (map g es)).
  { apply exc_map_all_ok. intros e He. unfold build_article_data, g.
    specialize (Hlinks e He).
    destruct (Entry.link e); [reflexivity | congruence]. }
  rewrite Hall. split; [|split].
  - rewrite map_map. apply map_ext_in. intros e He. unfold g; simpl.
    specialize (Hlinks e He). destruct (Entry.link e); congruence.
  - rewrite map_map. reflexivity.
  - intros ad Had. apply in_map_iff in Had. destruct Had as (e & <- & _).
    split; reflexivity.
Qed.

Lemma fetch_rss_feed_records_in_feed_order_sample :
  feedparser_parse world_ok src_news = Ok [entry_a; entry_b; entry_a]
  /\ map ad_title (fetch_rss_feed sample_lib world_ok src_news)
     = ["A"; "B"; "A"].
Proof.
  split; [reflexivity|].
  assert (H : forall e,
             In e (py_slice_to [entry_a; entry_b; entry_a]
                               (max_articles world_ok)) ->
             Entry.link e <> None).
  { intros e He. vm_compute in He.
    destruct He as [<-|[<-|[<-|[]]]]; discriminate. }
  exact (proj1 (proj2 (fetch_rss_feed_records_in_feed_order
                         sample_lib world_ok src_news _ eq_refl H))).
Defined.

Lemma fetch_rss_feed_source_ids lib w source ad :
  In ad (fetch_rss_feed lib w source) ->
  ad_source_id ad = Source.id source /\
  ad_category_id ad = Source.category_id source.
Proof.
  unfold fetch_rss_feed.
  destruct (feedparser_parse w source) as [entries|]; simpl; [|tauto].
  destruct (exc_map _ _) as [l|] eqn:E; [|simpl; tauto].
  intros Hin. destruct (exc_map_in _ _ _ _ E Hin) as (e & _ & He).
  unfold build_article_data in He.
  destruct (Entry.link e); [|discriminate He].
  injection He as <-. split; reflexivity.
Qed.

Lemma enriched_ids w ad :
  ad_source_id (enriched w ad) = ad_source_id ad /\
  ad_category_id (enriched w ad) = ad_category_id ad.
Proof.
  unfold enriched. destruct (extract_article_content w (ad_link ad)) as [c|];
    [destruct (str_truthy c)|]; split; reflexivity.
Qed.

(** ** More on the cycle *)

Section CycleAccounts.

Variable lib : Lib.
Variable w : World.

(** X3. Every article a cycle stages carries the id and the category of an
    active source, is active and has no view yet. *)
Theorem staged_articles_belong_to_active_source (db : database) (a : Article.t) :
  In a (pending_articles (fst (run_cycle lib w db))) ->
  exists s,
    In s (active_sources db)
    /\ Article.source_id a = Source.id s
    /\ Article.category_id a = Source.category_id s
    /\ Article.is_active a = true
    /\ Article.view_count a = 0%Z.
Proof.
  revert a. unfold run_cycle.
  apply (update_sources_invariant lib w
           (fun st => forall a, In a (pending_articles st) ->
              exists s,
                In s (active_sources db)
                /\ Article.source_id a = Source.id s
                /\ Article.category_id a = Source.category_id s
                /\ Article.is_active a = true
                /\ Article.view_count a = 0%Z)).
  - intros source ad st Hs Had IH _ _ a.
    rewrite pending_articles_add_article, in_app_iff.
    intros [H|[<-|[]]]; [apply IH; exact H|].
    exists source. split; [exact Hs|].
    destruct (fetch_rss_feed_source_ids lib w source ad Had) as [H1 H2].
    destruct (enriched_ids w ad) as [H3 H4].
    simpl. rewrite H3, H4. auto.
  - intros st lg IH _ a. rewrite pending_articles_add_log. apply IH.
  - intros source ad st msg _ _ _ _ _ a [].
  - simpl. intros a [].
Qed.

(** X4. The links of the articles a cycle stages are pairwise distinct: a link
    that two feeds offer, or one feed twice, is staged once. *)
Theorem staged_links_distinct (db : database) :
  NoDup (article_links (pending_articles (fst (run_cycle lib w db)))).
Proof.
  unfold run_cycle.
  apply (update_sources_invariant lib w
           (fun st => NoDup (article_links (pending_articles st)))).
  - intros source ad st _ _ Hnd _ Hnew.
    rewrite pending_articles_add_article. unfold article_links.
    rewrite map_app. simpl. rewrite enriched_link.
    apply NoDup_app; [exact Hnd | repeat constructor; intros [] |].
    intros x Hx [<-|[]]. apply Hnew.
    unfold visible_links, visible_articles, article_links.
    rewrite map_app, in_app_iff. right. exact Hx.
  - intros st lg Hnd _. rewrite pending_articles_add_log. exact Hnd.
  - intros source ad st msg _ _ _ _ _. simpl. constructor.
  - simpl. constructor.
Qed.

(** What the inner loop stages and what it counts, when it leaves the
    session live. *)
Lemma stage_articles_count source l :
  forall n st,
    rolled_back (fst (stage_articles w source l n st)) = false ->
    exists new,
      pending_articles (fst (stage_articles w source l n st))
      = (pending_articles st ++ new)%list
      /\ length new <= length l
      /\ (forall n', snd (stage_articles w source l n st) = Ok n' ->
                     n' = n + length new).
Proof.
  induction l as [|ad l IH]; intros n st; simpl.
  - intros _. exists []. rewrite app_nil_r. repeat split; auto.
    intros n' H. injection H as <-. simpl. lia.
  - destruct (stage_article_cases w source ad st)
      as [(msg & _ & ->) | [(msg & _ & ->)
                           | [(_ & _ & ->) | (_ & _ & ->)]]].
    + simpl. intros H. discriminate H.
    + simpl. intros _. exists []. rewrite app_nil_r. simpl.
      repeat split; [lia|].
      intros n' H. discriminate H.
    + intros Hlive. destruct (IH n st Hlive) as (new & H1 & H2 & H3).
      exists new. repeat split; [exact H1 | lia | exact H3].
    + intros Hlive.
      destruct (IH (S n) (session_add st
                            (ArticleRow (new_article (enriched w ad)))) Hlive)
        as (new & H1 & H2 & H3).
      exists (new_article (enriched w ad) :: new).
      rewrite pending_articles_add_article, <- app_assoc in H1.
      repeat split; [exact H1 | simpl; lia |].
      intros n' H. rewrite (H3 n' H). simpl. lia.
Qed.

(** When a flush has failed in the inner loop nothing is pending. *)
Lemma stage_articles_rolled_back source l n st :
  rolled_back st = false ->
  rolled_back (fst (stage_articles w source l n st)) = true ->
  pending (fst (stage_articles w source l n st)) = [].
Proof.
  intros Hlive.
  apply (stage_articles_invariant w
           (fun st' => rolled_back st' = true -> pending st' = [])); auto.
  - intros ad st' _ _ Hl _ H. simpl in H. congruence.
  - congruence.
Qed.

Lemma stage_articles_ok source l :
  (forall link, query_error w source link = None) ->
  forall n st, exists n', snd (stage_articles w source l n st) = Ok n'.
Proof.
  intros Hq. induction l as [|ad l IH]; intros n st; simpl; [eauto|].
  destruct (stage_article_cases w source ad st)
    as [(msg & Hm & _) | [(msg & Hm & _)
                         | [(_ & _ & ->) | (_ & _ & ->)]]].
  - rewrite Hq in Hm. discriminate Hm.
  - rewrite Hq in Hm. discriminate Hm.
  - apply IH.
  - apply IH.
Qed.

(** The turn of a source: either its handler raises and nothing is left, or
    it adds one log row whose count is added to the total. *)
Lemma update_source_count acc source :
  rolled_back (fst acc) = false ->
  (rolled_back (fst (update_source lib w acc source)) = true
   /\ pending (fst (update_source lib w acc source)) = []
   /\ snd (update_source lib w acc source) = 0
   /\ exists link msg, query_error w source link = Some (FlushFailed msg))
  \/ (rolled_back (fst (update_source lib w acc source)) = false
      /\ exists new lg,
        pending_articles (fst (update_source lib w acc source))
        = (pending_articles (fst acc) ++ new)%list
        /\ pending_logs (fst (update_source lib w acc source))
           = (pending_logs (fst acc) ++ [lg])%list
        /\ snd (update_source lib w acc source)
           = snd acc + UpdateLog.articles_count lg
        /\ UpdateLog.articles_count lg <= length new
        /\ length new <= length (fetch_rss_feed lib w source)
        /\ ((forall link, query_error w source link = None) ->
            UpdateLog.articles_count lg = length new)).
Proof.
  destruct acc as [st total]. simpl. intros Hlive.
  unfold update_source. rewrite Hlive.
  pose proof (stage_articles_count source (fetch_rss_feed lib w source) 0 st)
    as Hcount.
  pose proof (stage_articles_pending_logs w source
                (fetch_rss_feed lib w source) 0 st Hlive) as Hl.
  pose proof (stage_articles_rolled_back source
                (fetch_rss_feed lib w source) 0 st Hlive) as Hrb.
  assert (Hfl : rolled_back
                  (fst (stage_articles w source (fetch_rss_feed lib w source)
                          0 st)) = true ->
                exists link msg,
                  query_error w source link = Some (FlushFailed msg)).
  { intros Hr.
    refine (proj1 (stage_articles_invariant w
                     (fun st' => rolled_back st' = true ->
                                 exists link msg,
                                   query_error w source link
                                   = Some (FlushFailed msg))
                     source (fetch_rss_feed lib w source) _ _ 0 st _ Hlive)
                  Hr).
    - intros ad st' _ _ Hl' _ H. simpl in H. congruence.
    - intros ad st' msg _ _ _ H _. eauto.
    - congruence. }
  assert (Hok : (forall link, query_error w source link = None) ->
                exists n',
                  snd (stage_articles w source (fetch_rss_feed lib w source)
                                      0 st) = Ok n').
  { intros Hq. apply stage_articles_ok. exact Hq. }
  assert (Hraise :
            rolled_back
              (fst (stage_articles w source (fetch_rss_feed lib w source)
                      0 st)) = true ->
            exists msg,
              snd (stage_articles w source (fetch_rss_feed lib w source) 0 st)
              = Raise msg).
  { apply (stage_articles_invariant w (fun _ => True)); auto. }
  destruct (stage_articles w source (fetch_rss_feed lib w source) 0 st)
    as [st' [n|msg]]; simpl in *.
  - right.
    assert (Hl' : rolled_back st' = false).
    { destruct (rolled_back st'); [|reflexivity].
      destruct (Hraise eq_refl) as [m Hm]. discriminate Hm. }
    split; [exact Hl'|].
    destruct (Hcount Hl') as (new & H1 & H2 & H3).
    exists new,
      (success_log source (length (fetch_rss_feed lib w source)) n).
    rewrite pending_articles_add_log, pending_logs_add_log, H1, (Hl Hl').
    specialize (H3 n eq_refl). simpl in H3. subst n. simpl.
    split; [reflexivity|]. split; [reflexivity|]. split; [reflexivity|].
    split; [lia|]. split; [exact H2|]. intros _. reflexivity.
  - destruct (rolled_back st') eqn:Hl'; simpl.
    + left. rewrite Hl'. auto.
    + right. split; [exact Hl'|].
      destruct (Hcount eq_refl) as (new & H1 & H2 & H3).
      exists new, (error_log source msg).
      rewrite pending_articles_add_log, pending_logs_add_log, H1,
        (Hl eq_refl).
      simpl.
      split; [reflexivity|]. split; [reflexivity|]. split; [lia|].
      split; [lia|]. split; [exact H2|].
      intros Hq. destruct (Hok Hq) as [n' Hn']. discriminate Hn'.
Qed.

Lemma sum_counts_app l1 l2 :
  sum_counts (l1 ++ l2) = sum_counts l1 + sum_counts l2.
Proof.
  induction l1 as [|lg l1 IH]; simpl; [reflexivity|]. rewrite IH. lia.
Qed.

Lemma update_sources_count l :
  forall acc,
    snd acc = sum_counts (pending_logs (fst acc)) ->
    snd acc <= length (pending_articles (fst acc)) ->
    snd (update_sources lib w l acc)
    = sum_counts (pending_logs (fst (update_sources lib w l acc)))
    /\ snd (update_sources lib w l acc)
       <= length (pending_articles (fst (update_sources lib w l acc)))
    /\ ((forall s link, query_error w s link = None) ->
        snd acc = length (pending_articles (fst acc)) ->
        snd (update_sources lib w l acc)
        = length (pending_articles (fst (update_sources lib w l acc)))).
Proof.
  induction l as [|s l IH]; intros acc Hsum Hle; [simpl; auto|].
  destruct (rolled_back (fst acc)) eqn:Hlive.
  { rewrite update_sources_after_raise by exact Hlive. auto. }
  rewrite update_sources_cons.
  destruct (update_source_count acc s Hlive)
    as [(Hr & Hp & Ht & link & msg & Hfl)
       | (_ & new & lg & H1 & H2 & H3 & H4 & _ & H6)].
  - rewrite update_sources_after_raise by exact Hr.
    unfold pending_logs, pending_articles. rewrite Hp, Ht. simpl.
    split; [reflexivity|]. split; [lia|].
    intros Hq. rewrite Hq in Hfl. discriminate Hfl.
  - destruct (IH (update_source lib w acc s)) as (I1 & I2 & I3).
    + rewrite H3, H2, sum_counts_app, Hsum. simpl. lia.
    + rewrite H3, H1, length_app. lia.
    + split; [exact I1|]. split; [exact I2|].
      intros Hq Heq. apply I3; [exact Hq|].
      rewrite H3, H1, length_app, (H6 (Hq s)). lia.
Qed.

(** X5. The total a cycle reports is the sum of the counts of its log rows and
    never exceeds the number of articles staged; the two agree when no
    lookup raises. *)
Theorem cycle_total_matches_logs (db : database) :
  snd (run_cycle lib w db)
  = sum_counts (pending_logs (fst (run_cycle lib w db)))
  /\ snd (run_cycle lib w db)
     <= length (pending_articles (fst (run_cycle lib w db)))
  /\ ((forall s link, query_error w s link = None) ->
      snd (run_cycle lib w db)
      = length (pending_articles (fst (run_cycle lib w db)))).
Proof.
  unfold run_cycle.
  destruct (update_sources_count (active_sources db) (fresh_session db, 0))
    as (H1 & H2 & H3); simpl; auto.
Qed.

(** A lookup whose SELECT raises ends the staging of its source there: the
    records before it are handled as usual and what they staged stays in
    the session, the records after it are not looked at. *)
Lemma stage_articles_raise source before ad after msg :
  (forall ad', In ad' before -> query_error w source (ad_link ad') = None) ->
  query_error w source (ad_link ad) = Some (SelectFailed msg) ->
  forall n st,
    stage_articles w source (before ++ ad :: after) n st
    = (fst (stage_articles w source before n st), Raise msg).
Proof.
  intros Hb Hq. induction before as [|ad0 before IH]; intros n st; simpl.
  - unfold stage_article. rewrite Hq. reflexivity.
  - destruct (stage_article_cases w source ad0 st)
      as [(msg0 & Hm & _) | [(msg0 & Hm & _)
                            | [(_ & _ & ->) | (_ & _ & ->)]]].
    + rewrite Hb in Hm by (left; reflexivity). discriminate Hm.
    + rewrite Hb in Hm by (left; reflexivity). discriminate Hm.
    + apply IH. intros ad' H'. apply Hb. right. exact H'.
    + apply IH. intros ad' H'. apply Hb. right. exact H'.
Qed.

(** The records before the failing one leave the session live. *)
Lemma stage_articles_before_live source before n st :
  (forall ad', In ad' before -> query_error w source (ad_link ad') = None) ->
  rolled_back st = false ->
  rolled_back (fst (stage_articles w source before n st)) = false.
Proof.
  intros Hb Hlive.
  apply (stage_articles_invariant w (fun st' => rolled_back st' = false));
    auto.
  intros ad' st' msg Hin _ _ H. rewrite (Hb ad' Hin) in H. discriminate H.
Qed.

(** X6. When the SELECT of the lookup of a record raises, in a live
    session, the source gets the error row: status [error], the text of the
    exception in the message, a count of zero, and nothing added to the
    total; the session stays live, and the articles staged before the
    failure stay in it next to the error row. *)
Theorem lookup_failure_logged_as_error
        (source : Source.t) (before after : list article_data)
        (ad : article_data) (msg : string) (st : session) (total : nat) :
  rolled_back st = false ->
  fetch_rss_feed lib w source = (before ++ ad :: after)%list ->
  (forall ad', In ad' before -> query_error w source (ad_link ad') = None) ->
  query_error w source (ad_link ad) = Some (SelectFailed msg) ->
  update_source lib w (st, total) source
  = (session_add (fst (stage_articles w source before 0 st))
                 (UpdateLogRow (error_log source msg)), total)
  /\ rolled_back (fst (update_source lib w (st, total) source)) = false
  /\ UpdateLog.status (error_log source msg) = "error"
  /\ UpdateLog.message (error_log source msg) = "Ошибка: " ++ msg
  /\ UpdateLog.articles_count (error_log source msg) = 0
  /\ (forall a, In a (pending_articles (fst (stage_articles w source before 0 st))) ->
                In a (pending_articles
                        (fst (update_source lib w (st, total) source))))
  /\ pending_logs (fst (update_source lib w (st, total) source))
     = (pending_logs st ++ [error_log source msg])%list.
Proof.
  intros Hlive Hf Hb Hq.
  pose proof (stage_articles_before_live source before 0 st Hb Hlive) as Hl.
  assert (Hu : update_source lib w (st, total) source
               = (session_add (fst (stage_articles w source before 0 st))
                              (UpdateLogRow (error_log source msg)), total)).
  { unfold update_source. rewrite Hlive, Hf.
    rewrite (stage_articles_raise source before ad after msg Hb Hq 0 st).
    rewrite Hl. reflexivity. }
  split; [exact Hu|].
  split; [rewrite Hu; exact Hl|].
  split; [reflexivity|]. split; [reflexivity|]. split; [reflexivity|].
  split.
  - intros a Ha. rewrite Hu. simpl. rewrite pending_articles_add_log. exact Ha.
  - rewrite Hu. simpl. rewrite pending_logs_add_log.
    rewrite (stage_articles_pending_logs w source before 0 st Hlive Hl).
    reflexivity.
Qed.

(** X7. A cycle leaves the categories and the sources as they are and only
    appends to the articles and to the log: no row is removed or changed,
    whether the commit goes through or not. *)
Theorem update_news_only_appends (db : database) :
  categories (update_news lib w db) = categories db
  /\ sources (update_news lib w db) = sources db
  /\ (exists new, articles (update_news lib w db) = (articles db ++ new)%list)
  /\ (exists new,
         update_logs (update_news lib w db) = (update_logs db ++ new)%list).
Proof.
  unfold update_news.
  destruct (rolled_back (fst (run_cycle lib w db)));
    [|destruct (commit_error w)]; unfold rollback, commit; simpl;
    rewrite (run_cycle_stored lib w db).
  - repeat split; exists []; rewrite app_nil_r; reflexivity.
  - repeat split; exists []; rewrite app_nil_r; reflexivity.
  - repeat split; eauto.
Qed.

End CycleAccounts.

Lemma lookup_failure_logged_as_error_sample :
  fetch_rss_feed sample_lib world_lookup_fails src_news
  = ([hd record_t (fetch_rss_feed sample_lib world_lookup_fails src_news)]
     ++ nth 1 (fetch_rss_feed sample_lib world_lookup_fails src_news) record_t
     :: [nth 2 (fetch_rss_feed sample_lib world_lookup_fails src_news) record_t])%list
  /\ map (fun lg => (UpdateLog.source_id lg, UpdateLog.status lg,
                     UpdateLog.message lg, UpdateLog.articles_count lg))
         (pending_logs
            (fst (update_source sample_lib world_lookup_fails
                    (fresh_session sample_db, 0) src_news)))
     = [(1%Z, "error", "Ошибка: connection lost", 0)]
  /\ article_links
       (pending_articles
          (fst (update_source sample_lib world_lookup_fails
                  (fresh_session sample_db, 0) src_news)))
     = ["https://news.example.com/a"].
Proof.
  split; [reflexivity|].
  assert (Hb : forall ad',
             In ad' [hd record_t (fetch_rss_feed sample_lib world_lookup_fails
                                                 src_news)] ->
             query_error world_lookup_fails src_news (ad_link ad') = None).
  { intros ad' [<-|[]]. reflexivity. }
  destruct (lookup_failure_logged_as_error sample_lib world_lookup_fails
              src_news
              [hd record_t (fetch_rss_feed sample_lib world_lookup_fails
                                           src_news)]
              [nth 2 (fetch_rss_feed sample_lib world_lookup_fails src_news)
                   record_t]
              (nth 1 (fetch_rss_feed sample_lib world_lookup_fails src_news)
                   record_t)
              "connection lost" (fresh_session sample_db) 0
              eq_refl eq_refl Hb eq_refl) as (Hu & _).
  rewrite Hu. split; reflexivity.
Defined.

(** ** More on the image *)

Lemma startswith_app_colon a r :
  startswith a "/" = false -> startswith (a ++ String ":" r) "/" = false.
Proof.
  unfold startswith. destruct a as [|c a]; cbn [append prefix].
  - intros _. destruct (ascii_dec "/" ":") as [E|]; [discriminate E|reflexivity].
  - destruct (ascii_dec "/" c); [|reflexivity].
    intros H. destruct a; discriminate H.
Qed.

Section ImageShape.

Variable lib : Lib.

Lemma scan_media_content_failed l v msg :
  scan_media_content l = Failed v msg -> v = None.
Proof.
  induction l as [|m l IH]; simpl; [discriminate|].
  destruct (startswith _ "image/"); [|exact IH].
  destruct (media_url m); [discriminate|]. intros [= <- _]. reflexivity.
Qed.

Lemma scan_enclosures_failed l v msg :
  scan_enclosures l = Failed v msg -> v = None.
Proof.
  induction l as [|x l IH]; simpl; [discriminate|].
  destruct (enc_type x) as [ty|]; [|exact IH].
  destruct (startswith ty "image/"); [|exact IH].
  destruct (enc_href x); [discriminate|]. intros [= <- _]. reflexivity.
Qed.

(** When the search of the structured fields raises, [image_url] is still
    [None] or empty. *)
Lemma image_from_fields_failed e v msg :
  image_from_fields e = Failed v msg -> truthy v = false.
Proof.
  unfold image_from_fields.
  assert (Hrest :
    match Entry.media_thumbnail e with
    | Some (t0 :: _) =>
        match media_url t0 with
        | Some u => Running (Some u)
        | None => Failed None "KeyError: 'url'"
        end
    | _ =>
        match Entry.enclosures e with
        | Some (x :: xs) => scan_enclosures (x :: xs)
        | _ => Running None
        end
    end = Failed v msg -> truthy v = false).
  { assert (Henc :
      match Entry.enclosures e with
      | Some (x :: xs) => scan_enclosures (x :: xs)
      | _ => Running None
      end = Failed v msg -> truthy v = false).
    { destruct (Entry.enclosures e) as [[|x xs]|]; try discriminate.
      intros H. apply scan_enclosures_failed in H. subst v. reflexivity. }
    destruct (Entry.media_thumbnail e) as [[|t0 ts]|]; try exact Henc.
    destruct (media_url t0); [discriminate|]. intros [= <- _]. reflexivity. }
  destruct (Entry.media_content e) as [[|m0 ms]|]; try exact Hrest.
  destruct (scan_media_content (m0 :: ms)) as [v0|v0 msg0] eqn:E.
  - destruct (truthy v0) eqn:Ht; cbn [negb]; [discriminate|].
    destruct (media_url m0); [discriminate|].
    intros [= <- _]. exact Ht.
  - apply scan_media_content_failed in E. subst v0.
    intros [= <- _]. reflexivity.
Qed.

(** X8. Whatever the entry holds, well formed or not, the image url a record
    gets is never protocol-relative, and it is root-relative only when
    [urlparse] refuses the url of the source (no scheme that [urlparse]
    returns starts with a slash). *)
Theorem image_url_not_protocol_relative
        (source : Source.t) (e : Entry.t) (u : string) :
  (forall scheme netloc,
     urlparse lib (Source.url source) = Ok (scheme, netloc) ->
     startswith scheme "/" = false) ->
  resolve_image_url lib source e = Some u ->
  startswith u "//" = false
  /\ (startswith u "/" = true ->
      exists msg, urlparse lib (Source.url source) = Raise msg).
Proof.
  intros Hscheme Hres.
  unfold resolve_image_url in Hres.
  destruct (image_from_fields e) as [v|v msg] eqn:E.
  - rewrite complete_image_url_normalize in Hres.
    destruct (image_from_markup lib e v) as [u0|]; [|discriminate Hres].
    simpl in Hres. injection Hres as <-.
    unfold chain_normalize, parsed_url.
    destruct (startswith u0 "//") eqn:E2.
    { split; [reflexivity | intros H; discriminate H]. }
    destruct (startswith u0 "/") eqn:E1.
    + destruct (urlparse lib (Source.url source)) as [[scheme netloc]|m].
      * assert (H1 : startswith (scheme ++ "://" ++ netloc ++ u0) "/" = false)
          by (apply startswith_app_colon; apply (Hscheme _ _ eq_refl)).
        split; [apply not_slash_not_slash2; exact H1|].
        intros H. rewrite H1 in H. discriminate H.
      * split; [exact E2 | intros _; exists m; reflexivity].
    + split; [exact E2 | intros H; rewrite E1 in H; discriminate H].
  - apply image_from_fields_failed in E. subst v.
    destruct u; [| discriminate E].
    split; [reflexivity | intros H; discriminate H].
Qed.

End ImageShape.

Lemma image_url_not_protocol_relative_sample :
  resolve_image_url sample_lib src_news entry_rooted
  = Some "https://news.example.com/img/a.jpg"
  /\ startswith "https://news.example.com/img/a.jpg" "//" = false.
Proof.
  split; [reflexivity|].
  refine (proj1 (image_url_not_protocol_relative sample_lib src_news
                   entry_rooted _ _ eq_refl)).
  intros scheme netloc H. vm_compute in H. injection H as <- _. reflexivity.
Defined.

(** ** More on the read side *)

Lemma insert_desc_length a l : length (insert_desc a l) = S (length l).
Proof.
  induction l as [|b l IH]; simpl; [reflexivity|].
  destruct (_ <? _)%Z; simpl; [reflexivity | rewrite IH; reflexivity].
Qed.

Lemma order_by_published_desc_length l :
  length (order_by_published_desc l) = length l.
Proof.
  induction l as [|a l IH]; simpl; [reflexivity|].
  rewrite insert_desc_length, IH. reflexivity.
Qed.

Lemma insert_desc_newest_first a l :
  newest_first l -> newest_first (insert_desc a l).
Proof.
  unfold newest_first. induction l as [|b l IH]; simpl; intros Hs.
  - constructor; constructor.
  - apply StronglySorted_inv in Hs. destruct Hs as [Hs Hb].
    destruct (Z.ltb_spec (timestamp (Article.published_at b))
                         (timestamp (Article.published_at a))) as [Hlt|Hge].
    + constructor.
      * constructor; assumption.
      * constructor; [lia|].
        rewrite Forall_forall in Hb |- *. intros x Hx.
        specialize (Hb x Hx). simpl in Hb. lia.
    + constructor; [apply IH; exact Hs|].
      rewrite Forall_forall in Hb |- *. intros x Hx.
      apply insert_desc_In in Hx. destruct Hx as [->|Hx]; [lia|].
      apply Hb. exact Hx.
Qed.

Lemma order_by_published_desc_newest_first l :
  newest_first (order_by_published_desc l).
Proof.
  induction l as [|a l IH]; simpl.
  - constructor.
  - apply insert_desc_newest_first. exact IH.
Qed.

Lemma newest_first_firstn n l : newest_first l -> newest_first (firstn n l).
Proof.
  unfold newest_first. revert l; induction n as [|n IH]; intros [|a l] Hs;
    simpl; try constructor.
  - apply IH. apply StronglySorted_inv in Hs. tauto.
  - apply StronglySorted_inv in Hs. destruct Hs as [_ Ha].
    rewrite Forall_forall in Ha |- *. intros x Hx. apply Ha.
    apply In_firstn in Hx. exact Hx.
Qed.

Lemma newest_first_skipn n l : newest_first l -> newest_first (skipn n l).
Proof.
  unfold newest_first. revert l; induction n as [|n IH]; intros [|a l] Hs;
    simpl; auto.
  apply IH. apply StronglySorted_inv in Hs. tauto.
Qed.

Lemma paginate_newest_first q page per_page :
  newest_first (items (paginate (order_by_published_desc q) page per_page)).
Proof.
  unfold paginate; simpl.
  apply newest_first_firstn, newest_first_skipn,
    order_by_published_desc_newest_first.
Qed.

(** X9. The rows of every page of the four listings stand newest first: no row
    is dated after a row that stands before it. *)
Theorem listing_pages_newest_first (db : database) (now : datetime) :
  (forall page source, newest_first (items (index db now page source)))
  /\ (forall page per_page, newest_first (items (api_news db now page per_page)))
  /\ (forall name page source p,
        category_news db now name page source = Some p ->
        newest_first (items p))
  /\ (forall name page per_page p,
        api_category_news db now name page per_page = Some p ->
        newest_first (items p)).
Proof.
  split; [intros; apply paginate_newest_first|].
  split; [intros; apply paginate_newest_first|].
  split.
  - intros name page source p H. unfold category_news in H.
    destruct (category_by_name db name); [|discriminate H].
    injection H as <-. apply paginate_newest_first.
  - intros name page per_page p H. unfold api_category_news in H.
    destruct (category_by_name db name); [|discriminate H].
    injection H as <-. apply paginate_newest_first.
Qed.

Lemma paginate_length q page per_page (bound : nat) :
  (per_page <= Z.of_nat bound)%Z -> 20 <= bound ->
  length (items (paginate q page per_page)) <= bound.
Proof.
  intros H Hb. unfold paginate; simpl. rewrite length_firstn.
  destruct (Z.ltb_spec per_page 1); lia.
Qed.

Lemma paginate_total q page per_page :
  total (paginate (order_by_published_desc q) page per_page) = length q.
Proof. unfold paginate; simpl. apply order_by_published_desc_length. Qed.

(** X10. A page of the home page or of a category page has at most 20 rows; a
    page of the two JSON listings has at most 100 rows whatever [per_page]
    asks for, and at most 20 when [per_page] is absent; the total the JSON
    listing reports is the number of articles that pass the filter, whatever
    the page. *)
Theorem listing_page_sizes (db : database) (now : datetime) :
  (forall page source, length (items (index db now page source)) <= 20)
  /\ (forall name page source p,
        category_news db now name page source = Some p ->
        length (items p) <= 20)
  /\ (forall page per_page,
        length (items (api_news db now page per_page)) <= 100)
  /\ (forall name page per_page p,
        api_category_news db now name page per_page = Some p ->
        length (items p) <= 100)
  /\ (forall page, length (items (api_news db now page None)) <= 20)
  /\ (forall page per_page,
        total (api_news db now page per_page)
        = length (filter (listed now) (articles db))).
Proof.
  split; [intros; apply paginate_length; lia|].
  split.
  { intros name page source p H. unfold category_news in H.
    destruct (category_by_name db name); [|discriminate H].
    injection H as <-. apply paginate_length; lia. }
  split; [intros; apply paginate_length; lia|].
  split.
  { intros name page per_page p H. unfold api_category_news in H.
    destruct (category_by_name db name); [|discriminate H].
    injection H as <-. apply paginate_length; lia. }
  split; [intros; apply paginate_length; simpl; lia|].
  intros page per_page. unfold api_news.
  rewrite paginate_total, filter_filter. reflexivity.
Qed.




(** X12. With a source id other than zero the home page and a category page hold
    only articles of that source; the id zero counts as no filter at all. *)
Theorem source_filter_selects
        (db : database) (now : datetime) (page : option Z) (sid : Z) :
  sid <> 0%Z ->
  (forall a, In a (items (index db now page (Some sid))) ->
             Article.source_id a = sid)
  /\ (forall name p a,
        category_news db now name page (Some sid) = Some p ->
        In a (items p) -> Article.source_id a = sid)
  /\ index db now page (Some 0%Z) = index db now page None
  /\ (forall name,
        category_news db now name page (Some 0%Z)
        = category_news db now name page None).
Proof.
  intros Hsid.
  assert (Hf : forall q a page' per_page,
             In a (items (paginate
                            (order_by_published_desc
                               (filter_source (Some sid) q)) page' per_page)) ->
             Article.source_id a = sid).
  { intros q a page' per_page H. apply paginate_In in H.
    rewrite order_by_published_desc_In in H. unfold filter_source in H.
    destruct (Z.eqb_spec sid 0); [contradiction|].
    apply filter_In in H. destruct H as [_ H]. apply Z.eqb_eq. exact H. }
  split.
  { intros a H. unfold index in H. cbv zeta in H. eapply Hf. exact H. }
  split.
  { intros name p a Hp Ha. unfold category_news in Hp.
    destruct (category_by_name db name); [|discriminate Hp].
    injection Hp as <-. cbv zeta in Ha. eapply Hf. exact Ha. }
  split; [reflexivity|].
  intros name. reflexivity.
Qed.

Lemma source_filter_selects_sample :
  2%Z <> 0%Z
  /\ (forall a, In a (items (index filled_db sample_now None (Some 2%Z))) ->
                Article.source_id a = 2%Z).
Proof.
  assert (H : 2%Z <> 0%Z) by discriminate.
  split; [exact H|].
  exact (proj1 (source_filter_selects filled_db sample_now None 2 H)).
Defined.

Lemma category_by_name_spec db name c :
  category_by_name db name = Some c ->
  In c (categories db) /\ Category.name c = name.
Proof.
  unfold category_by_name. intros H. apply find_some in H.
  destruct H as [H1 H2]. apply String.eqb_eq in H2. auto.
Qed.

(** X13. A category page and the JSON listing of a category answer 404 exactly
    when no category has the name, and otherwise hold only articles of the
    first category of that name. *)
Theorem category_pages_select (db : database) (now : datetime) (name : string) :
  (category_by_name db name = None <->
   forall c, In c (categories db) -> Category.name c <> name)
  /\ (forall page source,
        category_news db now name page source = None <->
        category_by_name db name = None)
  /\ (forall page per_page,
        api_category_news db now name page per_page = None <->
        category_by_name db name = None)
  /\ (forall c page source p a,
        category_by_name db name = Some c ->
        category_news db now name page source = Some p ->
        In a (items p) ->
        Category.name c = name /\
        Article.category_id a = Category.id c)
  /\ (forall c page per_page p a,
        category_by_name db name = Some c ->
        api_category_news db now name page per_page = Some p ->
        In a (items p) ->
        Category.name c = name /\
        Article.category_id a = Category.id c).
Proof.
  split.
  { unfold category_by_name. split.
    - intros H c Hc E.
      apply (find_none _ _ H) in Hc. apply String.eqb_neq in Hc. contradiction.
    - intros H. destruct (find _ _) as [c|] eqn:E; [|reflexivity].
      apply find_some in E. destruct E as [E1 E2].
      apply String.eqb_eq in E2. exfalso. exact (H c E1 E2). }
  split.
  { intros page source. unfold category_news.
    destruct (category_by_name db name); split; intros H;
      try discriminate; reflexivity. }
  split.
  { intros page per_page. unfold api_category_news.
    destruct (category_by_name db name); split; intros H;
      try discriminate; reflexivity. }
  split.
  { intros c page source p a Hc Hp Ha.
    split; [exact (proj2 (category_by_name_spec db name c Hc))|].
    unfold category_news in Hp. rewrite Hc in Hp. injection Hp as <-.
    apply page_row_listed in Ha. destruct Ha as (_ & Hk & _).
    apply Z.eqb_eq. exact Hk. }
  intros c page per_page p a Hc Hp Ha.
  split; [exact (proj2 (category_by_name_spec db name c Hc))|].
  unfold api_category_news in Hp. rewrite Hc in Hp. injection Hp as <-.
  apply (page_row_listed db now
           (fun x => (Article.category_id x =? Category.id c)%Z) None) in Ha.
  destruct Ha as (_ & Hk & _). apply Z.eqb_eq. exact Hk.
Qed.

Lemma list_sum_map_add {A : Type} (f g : A -> nat) l :
  list_sum (map (fun x => f x + g x) l)
  = list_sum (map f l) + list_sum (map g l).
Proof. induction l as [|x l IH]; simpl; [reflexivity|]. rewrite IH. lia. Qed.

Lemma list_sum_map_zero {A : Type} (f : A -> nat) l :
  (forall x, In x l -> f x = 0) -> list_sum (map f l) = 0.
Proof.
  induction l as [|x l IH]; simpl; intros H; [reflexivity|].
  rewrite (H x) by auto. rewrite IH by auto. reflexivity.
Qed.

Lemma one_category_matches (cats : list Category.t) (x : Z) :
  NoDup (map Category.id cats) ->
  In x (map Category.id cats) ->
  list_sum (map (fun c => if (x =? Category.id c)%Z then 1 else 0) cats) = 1.
Proof.
  induction cats as [|c cats IH]; simpl; intros Hnd Hin; [destruct Hin|].
  apply NoDup_cons_iff in Hnd. destruct Hnd as [Hc Hnd].
  destruct (Z.eqb_spec x (Category.id c)) as [E|E].
  - rewrite list_sum_map_zero; [reflexivity|].
    intros c' Hc'. destruct (Z.eqb_spec x (Category.id c')) as [E'|]; auto.
    exfalso. apply Hc. rewrite <- E, E'. apply in_map. exact Hc'.
  - destruct Hin as [Hin|Hin]; [congruence|]. simpl. apply IH; assumption.
Qed.

Lemma listed_by_category (cats : list Category.t) (now : datetime)
      (l : list Article.t) :
  NoDup (map Category.id cats) ->
  (forall a, In a l -> listed now a = true ->
             In (Article.category_id a) (map Category.id cats)) ->
  length (filter (listed now) l)
  = list_sum
      (map (fun c =>
              length (filter (fun a =>
                                (Article.category_id a =? Category.id c)%Z
                                && listed now a) l))
           cats).
Proof.
  intros Hnd. induction l as [|a l IH]; intros Hfk.
  - simpl. rewrite list_sum_map_zero; auto.
  - assert (IH' := IH (fun a' H => Hfk a' (or_intror H))).
    assert (Hsplit : forall c,
               length (filter (fun a0 =>
                                 (Article.category_id a0 =? Category.id c)%Z
                                 && listed now a0) (a :: l))
               = (if listed now a
                  then if (Article.category_id a =? Category.id c)%Z
                       then 1 else 0
                  else 0)
                 + length (filter (fun a0 =>
                                     (Article.category_id a0 =? Category.id c)%Z
                                     && listed now a0) l)).
    { intros c. simpl.
      destruct (listed now a), (Article.category_id a =? Category.id c)%Z;
        reflexivity. }
    rewrite (map_ext _ _ Hsplit), list_sum_map_add, <- IH'. simpl.
    destruct (listed now a) eqn:El.
    + rewrite one_category_matches; [reflexivity | exact Hnd |].
      apply Hfk; [left; reflexivity | exact El].
    + rewrite list_sum_map_zero; auto.
Qed.

(** X14. When the ids of the categories are distinct and every listed article
    belongs to a category of the table, the total of [/api/stats] is the sum
    of its counts by category; its count of sources is the number of active
    sources. *)
Theorem stats_total_is_sum_of_categories (db : database) (now : datetime) :
  NoDup (map Category.id (categories db)) ->
  (forall a, In a (articles db) -> listed now a = true ->
             In (Article.category_id a) (map Category.id (categories db))) ->
  total_articles (api_stats db now)
  = list_sum (map snd (stats_categories (api_stats db now)))
  /\ total_sources (api_stats db now) = length (active_sources db).
Proof.
  intros Hnd Hfk. split; [|reflexivity].
  unfold api_stats; simpl. rewrite filter_filter, map_map. simpl.
  fold (listed now).
  rewrite (listed_by_category (categories db) now (articles db) Hnd Hfk).
  f_equal. apply map_ext. intros c. unfold category_recent.
  rewrite filter_filter. f_equal. apply filter_ext. intros a.
  unfold listed. rewrite andb_assoc. reflexivity.
Qed.

Lemma stats_total_is_sum_of_categories_sample :
  NoDup (map Category.id (categories filled_db))
  /\ total_articles (api_stats filled_db sample_now) = 3
  /\ list_sum (map snd (stats_categories (api_stats filled_db sample_now))) = 3.
Proof.
  assert (Hnd : NoDup (map Category.id (categories filled_db))).
  { vm_compute. repeat constructor. intros []. }
  assert (Hfk : forall a, In a (articles filled_db) ->
                          listed sample_now a = true ->
                          In (Article.category_id a)
                             (map Category.id (categories filled_db))).
  { intros a Ha _. vm_compute in Ha.
    destruct Ha as [<-|[<-|[<-|[]]]]; left; reflexivity. }
  split; [exact Hnd|]. split; [reflexivity|].
  rewrite <- (proj1 (stats_total_is_sum_of_categories filled_db sample_now
                       Hnd Hfk)).
  reflexivity.
Defined.

(** ** The view of an article *)

Lemma index_of_spec ids x k :
  index_of ids x = Some k -> nth_error ids k = Some x.
Proof.
  revert k; induction ids as [|i ids IH]; simpl; intros k H; [discriminate|].
  destruct (Z.eqb_spec i x) as [->|_].
  - injection H as <-. reflexivity.
  - destruct (index_of ids x) as [k'|]; [|discriminate].
    injection H as <-. simpl. apply IH. reflexivity.
Qed.

Lemma index_of_in ids x : In x ids -> exists k, index_of ids x = Some k.
Proof.
  induction ids as [|i ids IH]; simpl; intros H; [destruct H|].
  destruct (Z.eqb_spec i x) as [_|Hne]; [eauto|].
  destruct H as [H|H]; [contradiction|].
  destruct (IH H) as [k ->]. eauto.
Qed.

Lemma index_of_none ids x : ~ In x ids -> index_of ids x = None.
Proof.
  intros H. destruct (index_of ids x) as [k|] eqn:E; [|reflexivity].
  apply index_of_spec in E. apply nth_error_In in E. contradiction.
Qed.

Lemma set_row_length {A : Type} (l : list A) k x :
  length (set_row l k x) = length l.
Proof.
  revert k; induction l as [|y l IH]; intros [|k]; simpl; auto.
Qed.

Lemma set_row_same {A : Type} (l : list A) k x :
  k < length l -> nth_error (set_row l k x) k = Some x.
Proof.
  revert k; induction l as [|y l IH]; intros [|k]; simpl; intros H;
    try lia; auto.
  apply IH. lia.
Qed.

Lemma set_row_other {A : Type} (l : list A) k j x :
  j <> k -> nth_error (set_row l k x) j = nth_error l j.
Proof.
  revert k j; induction l as [|y l IH]; intros [|k] [|j]; simpl; intros H;
    auto; try congruence.
Qed.

Lemma article_by_id_found ids db article_id :
  length ids = length (articles db) ->
  In article_id ids ->
  exists k a,
    index_of ids article_id = Some k
    /\ nth_error (articles db) k = Some a
    /\ article_by_id ids db article_id = Some (k, a).
Proof.
  intros Hlen Hin. destruct (index_of_in ids article_id Hin) as [k Hk].
  assert (Hlt : k < length (articles db)).
  { rewrite <- Hlen. apply nth_error_Some.
    rewrite (index_of_spec _ _ _ Hk). discriminate. }
  destruct (nth_error (articles db) k) as [a|] eqn:Ea.
  - exists k, a. unfold article_by_id. rewrite Hk, Ea. auto.
  - apply nth_error_None in Ea. lia.
Qed.

(** X15. A view of an article that exists, active or not and whatever its date,
    adds exactly one to its counter and changes nothing else in the tables;
    an id that no row has gives the 404 answer, and a commit that raises
    gives no page: in both cases the tables stay as they were. *)
Theorem article_detail_counts_one_view
        (ids : list Z) (db : database) (now : datetime) (article_id : Z) :
  (length ids = length (articles db) ->
   In article_id ids ->
   exists k a,
     index_of ids article_id = Some k
     /\ nth_error (articles db) k = Some a
     /\ fst (article_detail ids db now None article_id)
        = store_article db k (add_view a)
     /\ (exists similar,
            snd (article_detail ids db now None article_id)
            = Rendered {| shown := add_view a; similar_articles := similar |})
     /\ nth_error
          (articles (fst (article_detail ids db now None article_id))) k
        = Some (add_view a)
     /\ Article.view_count (add_view a) = (Article.view_count a + 1)%Z
     /\ (forall j, j <> k ->
           nth_error
             (articles (fst (article_detail ids db now None article_id))) j
           = nth_error (articles db) j)
     /\ length (articles (fst (article_detail ids db now None article_id)))
        = length (articles db)
     /\ forall msg,
          article_detail ids db now (Some msg) article_id
          = (db, ServerError msg))
  /\ (~ In article_id ids ->
      forall commit_error,
        article_detail ids db now commit_error article_id = (db, NotFound)).
Proof.
  split.
  - intros Hlen Hin.
    destruct (article_by_id_found ids db article_id Hlen Hin)
      as (k & a & Hk & Ha & Hget).
    exists k, a. unfold article_detail. rewrite Hget. simpl.
    assert (Hlt : k < length (articles db)).
    { apply nth_error_Some. rewrite Ha. discriminate. }
    repeat split; eauto.
    + apply set_row_same. exact Hlt.
    + intros j Hj. apply set_row_other. exact Hj.
    + apply set_row_length.
  - intros Hnot commit_error. unfold article_detail, article_by_id.
    rewrite (index_of_none ids article_id Hnot). reflexivity.
Qed.

Lemma similar_query_spec ids db bound article article_id b :
  In b (similar_query ids db bound article article_id) ->
  exists i,
    In (i, b) (combine ids (articles db))
    /\ i <> article_id
    /\ Article.is_active b = true
    /\ Article.category_id b = Article.category_id article
    /\ published_since bound b = true.
Proof.
  unfold similar_query. intros H. apply In_firstn in H.
  rewrite order_by_published_desc_In in H.
  apply in_map_iff in H. destruct H as ([i b'] & Hb & H). simpl in Hb. subst b'.
  apply filter_In in H. destruct H as [H Hp].
  apply filter_In in H. destruct H as [H Hi].
  apply filter_In in H. destruct H as [H Hc].
  simpl in *. apply andb_true_iff in Hc. destruct Hc as [Hc Ha].
  exists i. repeat split; auto.
  - intros E. subst i. rewrite Z.eqb_refl in Hi. discriminate Hi.
  - apply Z.eqb_eq. exact Hc.
Qed.

(** X16. The similar articles shown with an article are five at most, newest
    first, and each is a row with another id, active, of the category of
    the article shown, and dated no earlier than seven days before the
    view. *)
Theorem article_detail_similar
        (ids : list Z) (db db' : database) (now : datetime)
        (article_id : Z) (page : article_page) :
  article_detail ids db now None article_id = (db', Rendered page) ->
  length (similar_articles page) <= 5
  /\ newest_first (similar_articles page)
  /\ (forall b,
        In b (similar_articles page) ->
        exists i,
          In (i, b) (combine ids (articles db'))
          /\ i <> article_id
          /\ Article.is_active b = true
          /\ Article.category_id b = Article.category_id (shown page)
          /\ not_older_than_7_days now b).
Proof.
  unfold article_detail.
  destruct (article_by_id ids db article_id) as [[k found]|]; [|discriminate].
  intros H. injection H as <- <-. simpl.
  split; [unfold similar_query; rewrite length_firstn; lia|].
  split.
  { unfold similar_query. apply newest_first_firstn.
    apply order_by_published_desc_newest_first. }
  intros b Hb. apply similar_query_spec in Hb.
  destruct Hb as (i & H1 & H2 & H3 & H4 & H5).
  exists i. repeat split; auto.
  apply published_since_spec. exact H5.
Qed.

Lemma article_detail_similar_sample :
  (exists page,
      article_detail filled_ids filled_db sample_now None 11
      = (fst (article_detail filled_ids filled_db sample_now None 11),
         Rendered page)
      /\ length (similar_articles page) = 2
      /\ length (similar_articles page) <= 5).
Proof.
  eexists. split; [reflexivity|]. split; [reflexivity|].
  exact (proj1 (article_detail_similar filled_ids filled_db _ sample_now 11 _
                  eq_refl)).
Defined.

(** X17. [n] views in a row add [n] to the counter of the article and leave its
    other columns and the number of rows as they were. *)
Theorem view_times_adds
        (n : nat) (ids : list Z) (db : database) (now : datetime)
        (article_id : Z) (k : nat) (a : Article.t) :
  index_of ids article_id = Some k ->
  nth_error (articles db) k = Some a ->
  exists a',
    nth_error (articles (view_times n ids db now article_id)) k = Some a'
    /\ Article.view_count a' = (Article.view_count a + Z.of_nat n)%Z
    /\ Article.link a' = Article.link a
    /\ Article.title a' = Article.title a
    /\ Article.published_at a' = Article.published_at a
    /\ Article.is_active a' = Article.is_active a
    /\ length (articles (view_times n ids db now article_id))
       = length (articles db).
Proof.
  intros Hk. revert db a. induction n as [|n IH]; intros db a Ha.
  - exists a. simpl. repeat split; auto. lia.
  - simpl. unfold article_detail at 1 2, article_by_id. rewrite Hk, Ha. simpl.
    assert (Hlt : k < length (articles db)).
    { apply nth_error_Some. rewrite Ha. discriminate. }
    destruct (IH (store_article db k (add_view a)) (add_view a))
      as (a' & H1 & H2 & H3 & H4 & H5 & H6 & H7).
    { simpl. apply set_row_same. exact Hlt. }
    exists a'. simpl in *. rewrite set_row_length in H7.
    repeat split; auto. lia.
Qed.

Lemma view_times_adds_sample :
  index_of filled_ids 12 = Some 1
  /\ option_map Article.view_count (nth_error (articles filled_db) 1) = Some 0%Z
  /\ option_map Article.view_count
       (nth_error (articles (view_times 3 filled_ids filled_db sample_now 12)) 1)
     = Some 3%Z.
Proof.
  split; [reflexivity|]. split; [reflexivity|].
  destruct (view_times_adds 3 filled_ids filled_db sample_now 12 1
              (nth 1 (articles filled_db) article_tomorrow) eq_refl eq_refl)
    as (a' & H1 & H2 & _).
  rewrite H1. simpl. rewrite H2. reflexivity.
Defined.

(** ** The form that adds a source *)

Lemma fold_max_ge (ids : list Z) (x : Z) :
  In x ids -> (x <= fold_right Z.max 0 ids)%Z.
Proof.
  induction ids as [|i ids IH]; simpl; intros H; [destruct H|].
  destruct H as [->|H]; [lia|]. specialize (IH H). lia.
Qed.

Lemma next_id_fresh (ids : list Z) : ~ In (next_id ids) ids.
Proof.
  intros H. apply fold_max_ge in H. unfold next_id in H. lia.
Qed.

Lemma existsb_name_false (l : list Source.t) (name : string) :
  existsb (fun s' => Source.name s' =? name) l = false ->
  ~ In name (map Source.name l).
Proof.
  intros H Hin. apply in_map_iff in Hin. destruct Hin as (s & Hs & Hin).
  assert (He : existsb (fun s' => Source.name s' =? name) l = true).
  { apply existsb_exists. exists s. split; [exact Hin|].
    apply String.eqb_eq. exact Hs. }
  congruence.
Qed.

Lemma truthy_inv o : truthy o = true -> exists s, o = Some s /\ s <> "".
Proof.
  destruct o as [[|c s]|]; simpl; try discriminate.
  intros _. eexists. split; [reflexivity | discriminate].
Qed.

(** What [add_source] does to the tables, case by case. *)
Lemma add_source_cases py_int db_error db method form :
  fst (add_source py_int db_error db method form) = db
  \/ (method = POST
      /\ form_complete form = true
      /\ exists name url rss_url category_id c,
           form_name form = Some name
           /\ form_url form = Some url
           /\ form_rss_url form = Some rss_url
           /\ form_category_id form = Some category_id
           /\ py_int category_id = Ok c
           /\ ~ In name (map Source.name (sources db))
           /\ db_error = None
           /\ add_source py_int db_error db method form
              = (insert_source db
                   {| Source.id := next_id (map Source.id (sources db));
                      Source.name := name;
                      Source.url := url;
                      Source.rss_url := rss_url;
                      Source.category_id := c;
                      Source.is_active := true |},
                 RedirectToDashboard "Источник успешно добавлен!")).
Proof.
  unfold add_source. destruct method; [left; reflexivity|].
  fold (form_complete form).
  destruct (form_complete form) eqn:Hc; cbn [negb]; [|left; reflexivity].
  unfold form_complete in Hc.
  apply andb_true_iff in Hc. destruct Hc as [Hc H4].
  apply andb_true_iff in Hc. destruct Hc as [Hc H3].
  apply andb_true_iff in Hc. destruct Hc as [H1 H2].
  destruct (truthy_inv _ H1) as (name & -> & _).
  destruct (truthy_inv _ H2) as (url & -> & _).
  destruct (truthy_inv _ H3) as (rss_url & -> & _).
  destruct (truthy_inv _ H4) as (category_id & -> & _).
  destruct (py_int category_id) as [c|msg] eqn:Ei; [|left; reflexivity].
  unfold source_commit_error. cbn [Source.name].
  destruct (existsb _ (sources db)) eqn:Ee; [left; reflexivity|].
  destruct db_error as [msg|]; [left; reflexivity|].
  right. split; [reflexivity|]. split; [reflexivity|].
  exists name, url, rss_url, category_id, c.
  repeat split; auto.
  apply existsb_name_false. exact Ee.
Qed.

(** X18. [add_source] changes the tables only by appending one active source
    built from the four fields of the form, and only for a POST with all
    four fields filled in, a category id that [int] accepts, a name no
    source has yet and a commit that goes through; it never touches the
    categories, the articles or the log. *)
Theorem add_source_appends_one_source_or_nothing
        (py_int : string -> Exc Z) (db_error : option string)
        (db : database) (method : http_method) (form : source_form) :
  (fst (add_source py_int db_error db method form) = db
   \/ (method = POST
       /\ form_complete form = true
       /\ db_error = None
       /\ exists s,
            sources (fst (add_source py_int db_error db method form))
            = (sources db ++ [s])%list
            /\ Source.is_active s = true
            /\ Some (Source.name s) = form_name form
            /\ Some (Source.url s) = form_url form
            /\ Some (Source.rss_url s) = form_rss_url form
            /\ option_map py_int (form_category_id form)
               = Some (Ok (Source.category_id s))
            /\ ~ In (Source.name s) (map Source.name (sources db))
            /\ ~ In (Source.id s) (map Source.id (sources db))))
  /\ categories (fst (add_source py_int db_error db method form))
     = categories db
  /\ articles (fst (add_source py_int db_error db method form)) = articles db
  /\ update_logs (fst (add_source py_int db_error db method form))
     = update_logs db.
Proof.
  destruct (add_source_cases py_int db_error db method form)
    as [H | (Hm & Hc & name & url & rss_url & category_id & c
             & H1 & H2 & H3 & H4 & H5 & H6 & H7 & H8)].
  - rewrite H. split; [left; reflexivity | auto].
  - rewrite H8. simpl. split; [|auto].
    right. split; [exact Hm|]. split; [exact Hc|]. split; [exact H7|].
    eexists. split; [reflexivity|]. simpl.
    rewrite H1, H2, H3, H4. simpl. rewrite H5.
    repeat split; auto. apply next_id_fresh.
Qed.

(** X19. [add_source] keeps the ids of the sources pairwise distinct, and their
    names too. *)
Theorem add_source_keeps_keys
        (py_int : string -> Exc Z) (db_error : option string)
        (db : database) (method : http_method) (form : source_form) :
  NoDup (map Source.id (sources db)) ->
  NoDup (map Source.name (sources db)) ->
  NoDup (map Source.id
             (sources (fst (add_source py_int db_error db method form))))
  /\ NoDup (map Source.name
                (sources (fst (add_source py_int db_error db method form)))).
Proof.
  intros Hid Hname.
  destruct (add_source_cases py_int db_error db method form)
    as [H | (_ & _ & name & url & rss_url & category_id & c
             & _ & _ & _ & _ & _ & H6 & _ & H8)].
  - rewrite H. auto.
  - rewrite H8. simpl. rewrite !map_app. simpl. split.
    + apply NoDup_app; [exact Hid | repeat constructor; intros [] |].
      intros x Hx [<-|[]]. exact (next_id_fresh _ Hx).
    + apply NoDup_app; [exact Hname | repeat constructor; intros [] |].
      intros x Hx [<-|[]]. contradiction.
Qed.

Lemma sample_source_names_nodup : NoDup (map Source.name (sources sample_db)).
Proof.
  simpl. repeat constructor; simpl; intuition discriminate.
Qed.

Lemma add_source_keeps_keys_sample :
  NoDup (map Source.id (sources sample_db))
  /\ NoDup (map Source.name (sources sample_db))
  /\ map Source.id
         (sources (fst (add_source sample_int None sample_db POST sample_form)))
     = [1; 2; 3; 4]%Z
  /\ NoDup (map Source.id
                (sources (fst (add_source sample_int None sample_db POST
                                          sample_form)))).
Proof.
  split; [exact sample_source_ids_nodup|].
  split; [exact sample_source_names_nodup|].
  split; [reflexivity|].
  exact (proj1 (add_source_keeps_keys sample_int None sample_db POST
                  sample_form sample_source_ids_nodup
                  sample_source_names_nodup)).
Defined.

(** X20. A source that [add_source] has just stored is active, so the next
    cycle, when no handler ends it by raising, polls it and stages its log
    row, whatever its feed answers. *)
Theorem added_source_is_polled
        (lib : Lib) (w : World) (py_int : string -> Exc Z)
        (db : database) (form : source_form) :
  snd (add_source py_int None db POST form)
  = RedirectToDashboard "Источник успешно добавлен!" ->
  update_news_raises lib w (fst (add_source py_int None db POST form))
  = false ->
  In (next_id (map Source.id (sources db)))
     (map UpdateLog.source_id
          (pending_logs
             (fst (run_cycle lib w (fst (add_source py_int None db POST form))))))
  /\ length (pending_logs
               (fst (run_cycle lib w
                       (fst (add_source py_int None db POST form)))))
     = S (length (active_sources db)).
Proof.
  intros Hans Hlive. unfold update_news_raises in Hlive.
  destruct (add_source_cases py_int None db POST form)
    as [H | (_ & _ & name & url & rss_url & category_id & c
             & _ & _ & _ & _ & _ & _ & _ & H8)].
  - exfalso. clear Hlive. revert Hans H. unfold add_source.
    destruct (negb _); [discriminate|].
    destruct (form_name form), (form_url form), (form_rss_url form),
      (form_category_id form); try discriminate.
    destruct (py_int _); [|discriminate].
    destruct (source_commit_error _ _ _); [discriminate|].
    simpl. intros _ H.
    apply (f_equal (fun d => length (sources d))) in H. simpl in H.
    rewrite length_app in H. simpl in H. lia.
  - rewrite H8 in Hlive. rewrite H8. simpl. simpl in Hlive.
    assert (Hact : active_sources
                     (insert_source db
                        {| Source.id := next_id (map Source.id (sources db));
                           Source.name := name;
                           Source.url := url;
                           Source.rss_url := rss_url;
                           Source.category_id := c;
                           Source.is_active := true |})
                   = (active_sources db
                      ++ [{| Source.id := next_id (map Source.id (sources db));
                             Source.name := name;
                             Source.url := url;
                             Source.rss_url := rss_url;
                             Source.category_id := c;
                             Source.is_active := true |}])%list).
    { unfold active_sources, insert_source; simpl.
      rewrite filter_app. reflexivity. }
    split.
    + rewrite run_cycle_logs by exact Hlive.
      rewrite Hact, map_app, in_app_iff.
      right. left. reflexivity.
    + rewrite <- (length_map UpdateLog.source_id).
      rewrite run_cycle_logs by exact Hlive.
      rewrite Hact, length_map, length_app. simpl. lia.
Qed.

Lemma added_source_is_polled_sample :
  snd (add_source sample_int None sample_db POST sample_form)
  = RedirectToDashboard "Источник успешно добавлен!"
  /\ map UpdateLog.source_id
         (pending_logs
            (fst (run_cycle sample_lib world_ok
                    (fst (add_source sample_int None sample_db POST
                                     sample_form)))))
     = [1; 2; 4]%Z
  /\ In 4%Z
        (map UpdateLog.source_id
             (pending_logs
                (fst (run_cycle sample_lib world_ok
                        (fst (add_source sample_int None sample_db POST
                                         sample_form)))))).
Proof.
  split; [reflexivity|]. split; [reflexivity|].
  exact (proj1 (added_source_is_polled sample_lib world_ok sample_int
                  sample_db sample_form eq_refl eq_refl)).
Defined.

Lemma staged_articles_belong_to_active_source_sample :
  In (nth 2 (pending_articles (fst (run_cycle sample_lib world_ok sample_db)))
          article_tomorrow)
     (pending_articles (fst (run_cycle sample_lib world_ok sample_db)))
  /\ exists s,
       In s (active_sources sample_db)
       /\ Article.source_id
            (nth 2 (pending_articles
                      (fst (run_cycle sample_lib world_ok sample_db)))
                 article_tomorrow)
          = Source.id s
       /\ Source.id s = 2%Z.
Proof.
  assert (Hin : In (nth 2 (pending_articles
                             (fst (run_cycle sample_lib world_ok sample_db)))
                        article_tomorrow)
                   (pending_articles
                      (fst (run_cycle sample_lib world_ok sample_db)))).
  { right. right. left. reflexivity. }
  split; [exact Hin|].
  destruct (staged_articles_belong_to_active_source sample_lib world_ok
              sample_db _ Hin) as (s & Hs & Hid & _).
  exists s. split; [exact Hs|]. split; [exact Hid|].
  rewrite <- Hid. reflexivity.
Defined.
